(** * GCN classic socket handler: a shallow embedding of
      [gcn_classic_to_kafka/socket.py] and the properties of its
      framing, classification and teardown logic. *)

From Stdlib Require Import ZArith Lia.
From Stdlib Require Import Strings.Byte.
From stdpp Require Import base option list gmap strings pretty.

Local Open Scope Z_scope.

(** ** Bytes *)

Abbreviation bytes := (list byte).

Definition byte_to_Z (b : byte) : Z := Z.of_N (Byte.to_N b).

Definition byte_of_Z (z : Z) : byte :=
  match Byte.of_N (Z.to_N z) with
  | Some b => b
  | None => x00
  end.

(** ** [struct.Struct("!l")]: a big-endian signed 32-bit integer *)

Module int4.

Definition size : Z := 4.

Definition min_value : Z := - 2 ^ 31.
Definition max_value : Z := 2 ^ 31 - 1.

(** The unsigned value of four bytes, most significant first. *)
Definition unsigned (b0 b1 b2 b3 : byte) : Z :=
  Z.lor (Z.shiftl (byte_to_Z b0) 24)
    (Z.lor (Z.shiftl (byte_to_Z b1) 16)
       (Z.lor (Z.shiftl (byte_to_Z b2) 8) (byte_to_Z b3))).

(** Two's complement reading of a 32-bit pattern. *)
Definition to_signed (u : Z) : Z :=
  if Z.testbit u 31 then u - 2 ^ 32 else u.

(** [int4.unpack(buf)]: the buffer must hold exactly four bytes,
    otherwise [struct.error] ([None]). *)
Definition unpack (buf : bytes) : option Z :=
  match buf with
  | [b0; b1; b2; b3] => Some (to_signed (unsigned b0 b1 b2 b3))
  | _ => None
  end.

(** [int4.unpack_from(buf)]: reads the first four bytes of a buffer
    holding at least four, otherwise [struct.error] ([None]). *)
Definition unpack_from (buf : bytes) : option Z :=
  match buf with
  | b0 :: b1 :: b2 :: b3 :: _ => Some (to_signed (unsigned b0 b1 b2 b3))
  | _ => None
  end.

(** [int4.pack(z)]: [struct.error] ([None]) when [z] does not fit. *)
Definition pack (z : Z) : option bytes :=
  if bool_decide (min_value <= z <= max_value) then
    let u := z mod 2 ^ 32 in
    Some [ byte_of_Z (Z.land (Z.shiftr u 24) 255);
           byte_of_Z (Z.land (Z.shiftr u 16) 255);
           byte_of_Z (Z.land (Z.shiftr u 8) 255);
           byte_of_Z (Z.land u 255) ]
  else None.

End int4.

(** ** The event loop's world

    Time is the loop clock, counted in whole time units; it only moves
    while a coroutine is suspended waiting for bytes. *)

Inductive exn : Type :=
  | ValueError                                        (* readexactly(n), n < 0 *)
  | IncompleteReadError (partial : bytes) (expected : Z)
  | CancelledError                                    (* thrown into a cancelled task *)
  | TimeoutError                                      (* asyncio.wait_for *)
  | XMLSyntaxError                                    (* lxml.etree.fromstring *)
  | AttributeError                                    (* gcn.handlers.get_notice_type *)
  | StructError.                                      (* struct.error *)

(** What awaiting a coroutine gives: a value, an exception, or nothing
    at all because the coroutine stays suspended for ever. *)
Inductive result (A : Type) : Type :=
  | Return (a : A)
  | Raise (e : exn)
  | Pending.
Arguments Return {A} a.
Arguments Raise {A} e.
Arguments Pending {A}.

(** [asyncio.StreamReader]: the bytes the peer sends, each with the time
    it reaches the buffer, and the time of the peer's end of stream, if
    it ever closes. A peer sends finitely many bytes and ends its stream
    in the regular way or not at all; a peer that never stops sending
    and a connection that is reset are outside this model. *)
Record StreamReader : Type := {
  buffer : list (Z * byte);
  eof_at : option Z;
}.

Inductive LogRecord : Type :=
  | DebugRead (bin voe txt : Z)          (* "Read %d + %d + %d bytes" *)
  | InfoReceived (notice_type : Z)       (* "Received notice of type 0x%08X" *)
  | WarningDiffer (bin voe : Z)          (* "Binary ... and VOEvent ... notice types differ" *)
  | InfoConnected (peer : string)        (* "Client connected from %s" *)
  | InfoClosing (peer : string).         (* "Closing connection from %s" *)

(** The [metrics] module: two counters and a gauge. *)
Record Metrics : Type := {
  iamalive : nat;
  received : gmap (Z * string * string) nat;
  connected : Z;
}.

(** [confluent_kafka.Producer] as seen from the handler: the
    [produce(topic, data)] calls in order, and the number of [poll]s.
    The producer takes every message; one that refuses a message
    because its queue is full is outside this model. *)
Record Producer : Type := {
  produced : list (string * bytes);
  polls : nat;
}.

Record World : Type := {
  now : Z;
  deadline : option Z;
  reader : StreamReader;
  peername : string;
  writer_closed : bool;
  producer : Producer;
  metrics : Metrics;
  log : list LogRecord;
}.

Definition set_now (t : Z) (w : World) : World :=
  {| now := t; deadline := deadline w; reader := reader w;
     peername := peername w; writer_closed := writer_closed w;
     producer := producer w; metrics := metrics w; log := log w |}.

Definition set_deadline (d : option Z) (w : World) : World :=
  {| now := now w; deadline := d; reader := reader w;
     peername := peername w; writer_closed := writer_closed w;
     producer := producer w; metrics := metrics w; log := log w |}.

Definition set_reader (r : StreamReader) (w : World) : World :=
  {| now := now w; deadline := deadline w; reader := r;
     peername := peername w; writer_closed := writer_closed w;
     producer := producer w; metrics := metrics w; log := log w |}.

Definition set_writer_closed (b : bool) (w : World) : World :=
  {| now := now w; deadline := deadline w; reader := reader w;
     peername := peername w; writer_closed := b;
     producer := producer w; metrics := metrics w; log := log w |}.

Definition set_producer (p : Producer) (w : World) : World :=
  {| now := now w; deadline := deadline w; reader := reader w;
     peername := peername w; writer_closed := writer_closed w;
     producer := p; metrics := metrics w; log := log w |}.

Definition set_metrics (m : Metrics) (w : World) : World :=
  {| now := now w; deadline := deadline w; reader := reader w;
     peername := peername w; writer_closed := writer_closed w;
     producer := producer w; metrics := m; log := log w |}.

Definition set_log (l : list LogRecord) (w : World) : World :=
  {| now := now w; deadline := deadline w; reader := reader w;
     peername := peername w; writer_closed := writer_closed w;
     producer := producer w; metrics := metrics w; log := l |}.

(** ** Coroutines: state passing with exceptions *)

Definition Task (A : Type) : Type := World -> result A * World.

#[global] Instance Task_ret : MRet Task := fun A (a : A) w => (Return a, w).

#[global] Instance Task_bind : MBind Task := fun A B (f : A -> Task B) (m : Task A) w =>
  match m w with
  | (Return a, w') => f a w'
  | (Raise e, w') => (Raise e, w')
  | (Pending, w') => (Pending, w')
  end.

Definition raise {A : Type} (e : exn) : Task A := fun w => (Raise e, w).

(** [struct.error] for a buffer of the wrong size. *)
Definition from_struct {A : Type} (o : option A) : Task A :=
  match o with
  | Some a => mret a
  | None => raise StructError
  end.

(** [for x in xs: body(x)] *)
Fixpoint for_each {A : Type} (xs : list A) (body : A -> Task unit) : Task unit :=
  match xs with
  | [] => mret tt
  | x :: xs' => body x ;; for_each xs' body
  end.

(** [try: body finally: handler]. The handler runs when the body
    returns or raises, and the body's outcome stands unless the handler
    fails itself; a body that never completes never reaches it. *)
Definition try_finally {A : Type} (body : Task A) (handler : Task unit) : Task A :=
  fun w =>
    match body w with
    | (Pending, w') => (Pending, w')
    | (r, w') =>
        match handler w' with
        | (Return _, w'') => (r, w'')
        | (Raise e, w'') => (Raise e, w'')
        | (Pending, w'') => (Pending, w'')
        end
    end.

(** ** Logging, metrics and the producer *)

Definition log_emit (r : LogRecord) : Task unit :=
  fun w => (Return tt, set_log (log w ++ [r]) w).

Definition iamalive_inc : Task unit :=
  fun w =>
    let m := metrics w in
    (Return tt,
     set_metrics {| iamalive := S (iamalive m); received := received m;
                    connected := connected m |} w).

(** One more in the cell of a labelled counter. *)
Definition counter_inc (labels : Z * string * string)
    (c : gmap (Z * string * string) nat) : gmap (Z * string * string) nat :=
  <[labels := S (default 0%nat (c !! labels))]> c.

(** [metrics.received.labels(...).inc()] *)
Definition received_inc (labels : Z * string * string) : Task unit :=
  fun w =>
    let m := metrics w in
    (Return tt,
     set_metrics {| iamalive := iamalive m;
                    received := counter_inc labels (received m);
                    connected := connected m |} w).

Definition connected_add (k : Z) : Task unit :=
  fun w =>
    let m := metrics w in
    (Return tt,
     set_metrics {| iamalive := iamalive m; received := received m;
                    connected := connected m + k |} w).

(** [with metrics.connected.track_inprogress(): body] *)
Definition track_inprogress {A : Type} (body : Task A) : Task A :=
  connected_add 1 ;; try_finally body (connected_add (-1)).

Definition produce (topic : string) (data : bytes) : Task unit :=
  fun w =>
    let p := producer w in
    (Return tt,
     set_producer {| produced := produced p ++ [(topic, data)]; polls := polls p |} w).

Definition poll : Task unit :=
  fun w =>
    let p := producer w in
    (Return tt, set_producer {| produced := produced p; polls := S (polls p) |} w).

(** [writer.close(); await writer.wait_closed()] *)
Definition writer_close : Task unit :=
  fun w => (Return tt, set_writer_closed true w).

(** ** The stream reader *)

(** The time by which every byte of a chunk is in the buffer, for a
    reader that starts waiting at [t]. *)
Definition ready_at (t : Z) (chunk : list (Z * byte)) : Z :=
  foldr (fun tb acc => Z.max tb.1 acc) t chunk.

(** Cancellation wakes the coroutine at its deadline. *)
Definition cancel {A : Type} (d : Z) : Task A :=
  fun w => (Raise CancelledError, set_now (Z.max (now w) d) w).

(** Suspend until time [t] and go on with [k], unless the deadline
    comes first (a deadline that falls on [t] itself wins). *)
Definition await_until {A : Type} (t : Z) (k : Task A) : Task A :=
  fun w =>
    match deadline w with
    | Some d => if bool_decide (d <= t) then cancel d w else k (set_now t w)
    | None => k (set_now t w)
    end.

(** Suspend on an event that never happens. *)
Definition await_forever {A : Type} : Task A :=
  fun w =>
    match deadline w with
    | Some d => cancel d w
    | None => (Pending, w)
    end.

(** The two ways [readexactly] leaves its wait loop. *)
Definition take_exactly (k : nat) : Task bytes :=
  fun w =>
    let r := reader w in
    (Return (take k (buffer r)).*2,
     set_reader {| buffer := drop k (buffer r); eof_at := eof_at r |} w).

Definition incomplete_read (n : Z) : Task bytes :=
  fun w =>
    let r := reader w in
    (Raise (IncompleteReadError (buffer r).*2 n),
     set_reader {| buffer := []; eof_at := eof_at r |} w).

(** [await reader.readexactly(n)] *)
Definition readexactly (n : Z) : Task bytes :=
  fun w =>
    if bool_decide (n < 0) then (Raise ValueError, w)
    else if bool_decide (n = 0) then (Return [], w)
    else
      let r := reader w in
      let k := Z.to_nat n in
      if bool_decide (k <= length (buffer r))%nat then
        await_until (ready_at (now w) (take k (buffer r))) (take_exactly k) w
      else
        match eof_at r with
        | Some te =>
            await_until (ready_at (Z.max (now w) te) (buffer r)) (incomplete_read n) w
        | None => await_forever w
        end.

(** [await asyncio.wait_for(aw, timeout)]: the awaitable runs under a
    deadline of [timeout] from now; its cancellation surfaces as
    [TimeoutError]. *)
Definition wait_for {A : Type} (aw : Task A) (timeout : Z) : Task A :=
  fun w =>
    match aw (set_deadline (Some (now w + timeout)) w) with
    | (Raise CancelledError, w') => (Raise TimeoutError, set_deadline (deadline w) w')
    | (r, w') => (r, set_deadline (deadline w) w')
    end.

(** What a call of an imported function gives: a value or an
    exception. *)
Inductive outcome (A : Type) : Type :=
  | returns (a : A)
  | throws (e : exn).
Arguments returns {A} a.
Arguments throws {A} e.

(** ** What the module imports

    [gcn.NoticeType], [gcn.handlers.get_notice_type],
    [lxml.etree.fromstring] and the two functions of [.common] are not
    part of this file; the handler is written against their interface. *)
Class Imports : Type := {
  IM_ALIVE : Z;
  VOE_11_IM_ALIVE : Z;
  VOE_20_IM_ALIVE : Z;
  Element : Type;
  (** [None] stands for [XMLSyntaxError]. *)
  fromstring : bytes -> option Element;
  (** The type code in the [Packet_Type] parameter of the document, or
      the exception raised when the document has no such parameter or
      its value is not an integer. *)
  get_notice_type : Element -> outcome Z;
  notice_type_int_to_str : Z -> string;
  topic_for_notice_type_str : string -> string -> string;
}.

(** ** [socket.py] *)

Definition bin_len : Z := 160.

Definition default_timeout : Z := 90.

Section socket.
Context `{Imports}.

Definition ignore_notice_types : gset Z :=
  {[ IM_ALIVE; VOE_11_IM_ALIVE; VOE_20_IM_ALIVE ]}.

Definition lxml_fromstring (data : bytes) : Task Element :=
  match fromstring data with
  | Some doc => mret doc
  | None => raise XMLSyntaxError
  end.

Definition gcn_get_notice_type (voe : Element) : Task Z :=
  match get_notice_type voe with
  | returns t => mret t
  | throws e => raise e
  end.

Definition read : Task (bytes * bytes * bytes) :=
  bin_data ← readexactly bin_len;
  voe_len ← readexactly int4.size ≫= (from_struct ∘ int4.unpack);
  voe_data ← readexactly voe_len;
  txt_len ← readexactly int4.size ≫= (from_struct ∘ int4.unpack);
  txt_data ← readexactly txt_len;
  log_emit (DebugRead bin_len voe_len txt_len);;
  mret (bin_data, voe_data, txt_data).

(** The body of [process] after the frame has been read. *)
Definition dispatch (frame : bytes * bytes * bytes) : Task unit :=
  let '(bin_data, voe_data, txt_data) := frame in
  iamalive_inc;;
  bin_notice_type ← from_struct (int4.unpack_from bin_data);
  log_emit (InfoReceived bin_notice_type);;
  if bool_decide (bin_notice_type ∈ ignore_notice_types) then mret tt
  else
    voe ← lxml_fromstring voe_data;
    voe_notice_type ← gcn_get_notice_type voe;
    (if bool_decide (bin_notice_type ≠ voe_notice_type)
     then log_emit (WarningDiffer bin_notice_type voe_notice_type)
     else mret tt);;
    let txt_notice_type := bin_notice_type in
    for_each
      [ (bin_notice_type, bin_data, "binary"%string);
        (voe_notice_type, voe_data, "voevent"%string);
        (txt_notice_type, txt_data, "text"%string) ]
      (fun '(notice_type_int, data, flavor) =>
         let notice_type_str := notice_type_int_to_str notice_type_int in
         received_inc (notice_type_int, notice_type_str, flavor);;
         let topic := topic_for_notice_type_str notice_type_str flavor in
         produce topic data);;
    poll.

Definition process (timeout : Z) : Task unit :=
  wait_for read timeout ≫= dispatch.

(** [while True: await process()], unrolled at most [fuel] times;
    [None] when the fuel runs out before the loop is left. *)
Fixpoint forever (fuel : nat) (timeout : Z) (w : World) : option (result unit * World) :=
  match fuel with
  | O => None
  | S fuel' =>
      match process timeout w with
      | (Return _, w') => forever fuel' timeout w'
      | (r, w') => Some (r, w')
      end
  end.

(** Every frame takes at least the binary block out of the buffer,
    so this many rounds are enough for what the peer has sent. *)
Definition enough_fuel (w : World) : nat := S (length (buffer (reader w))).

(** The loop of the callback. The fuel never runs out ([serve_raises]
    below), so the last branch is never taken. *)
Definition serve (timeout : Z) : Task unit :=
  fun w =>
    match forever (enough_fuel w) timeout w with
    | Some rw => rw
    | None => (Pending, w)
    end.

Definition client_connected_cb (timeout : Z) : Task unit :=
  fun w =>
    let peer := peername w in
    (log_emit (InfoConnected peer);;
     try_finally
       (track_inprogress (serve timeout))
       (log_emit (InfoClosing peer);; writer_close)) w.

(** [client_connected(producer)] with the default timeout. *)
Definition client_connected : Task unit := client_connected_cb default_timeout.

End socket.

(** ** The wire format, from the sender's side

    One notice on the wire: the 160-byte binary block, then each of the
    VOEvent and text payloads behind its packed length. This is what
    [read] is meant to take apart; a payload too long for the length
    field cannot be framed. *)
Definition frame_bytes (bin_data voe_data txt_data : bytes) : option bytes :=
  voe_len ← int4.pack (Z.of_nat (length voe_data));
  txt_len ← int4.pack (Z.of_nat (length txt_data));
  Some (bin_data ++ voe_len ++ voe_data ++ txt_len ++ txt_data).

(** Bytes that all reach the reader at time [t]. *)
Definition arriving (t : Z) (data : bytes) : list (Z * byte) := (fun b => (t, b)) <$> data.

(** A freshly accepted connection. *)
Definition accepted (peer : string) (r : StreamReader) : World :=
  {| now := 0; deadline := None; reader := r; peername := peer;
     writer_closed := false;
     producer := {| produced := []; polls := 0 |};
     metrics := {| iamalive := 0; received := ∅; connected := 0 |};
     log := [] |}.

(** ** Stand-ins for the imports, for running the handler on examples

    The XML stand-in accepts a payload that opens with [<] and takes the
    byte after it as the notice type, except that [/] there stands for a
    document without a [Packet_Type] parameter; names and topics are
    printed from the code. The theorems below do not depend on these
    choices. *)
Module sample.

Definition parse (data : bytes) : option Z :=
  match data with
  | "<"%byte :: b :: _ => Some (byte_to_Z b)
  | _ => None
  end.

#[export] Instance imports : Imports := {|
  IM_ALIVE := 3;
  VOE_11_IM_ALIVE := 901;
  VOE_20_IM_ALIVE := 902;
  Element := Z;
  fromstring := parse;
  get_notice_type := fun doc =>
    if bool_decide (doc = 47) then throws AttributeError else returns doc;
  notice_type_int_to_str := fun t => ("TYPE_" +:+ pretty t)%string;
  topic_for_notice_type_str := fun name flavor =>
    ("gcn.classic." +:+ flavor +:+ "." +:+ name)%string;
|}.

(** A binary block: the type code, then zero padding up to 160 bytes. *)
Definition bin_block (notice_type : Z) : bytes :=
  default [] (int4.pack notice_type) ++ replicate 156 x00.

Definition voe_100 : bytes := ["<"; "d"; ">"]%byte.
Definition voe_101 : bytes := ["<"; "e"; ">"]%byte.
Definition not_xml : bytes := ["d"; "<"]%byte.
Definition txt : bytes := ["T"; "X"; "T"]%byte.

Definition frame (notice_type : Z) (voe_data : bytes) : bytes :=
  default [] (frame_bytes (bin_block notice_type) voe_data txt).

(** A peer that sends [data] at time [t] and closes at [close]. *)
Definition peer_sends (t : Z) (data : bytes) (close : option Z) : World :=
  accepted "peer" {| buffer := arriving t data; eof_at := close |}.

(** One notice whose encodings agree, one where they differ, a
    heartbeat and a notice whose VOEvent payload is not XML. *)
Definition w_notice : World := peer_sends 5 (frame 100 voe_100) (Some 10).
Definition w_mismatch : World := peer_sends 5 (frame 100 voe_101) (Some 10).
Definition w_heartbeat : World := peer_sends 5 (frame 3 not_xml) (Some 10).
Definition w_malformed : World := peer_sends 5 (frame 100 not_xml) (Some 10).

(** A notice followed by two bytes of the next one. *)
Definition w_trailing : World :=
  peer_sends 5 (frame 100 voe_100 ++ [x01; x02]) (Some 10).

(** A peer that closes without sending, and one that closes after the
    binary block and the length of a 160-byte VOEvent payload. *)
Definition voe_160 : bytes := replicate 160 "<"%byte.
Definition w_idle : World := peer_sends 0 [] (Some 5).
Definition w_cut : World := peer_sends 0 (take 164 (frame 100 voe_160)) (Some 5).

(** A peer that sends its notice only after 95 time units, and never
    closes. *)
Definition w_late : World := peer_sends 95 (frame 100 voe_100) None.

(** A notice whose VOEvent payload parses but carries no type code. *)
Definition voe_untyped : bytes := ["<"; "/"; ">"]%byte.
Definition w_untyped : World := peer_sends 5 (frame 100 voe_untyped) (Some 10).

End sample.

(** ** Properties of coroutines

    [touches_reader w w']: going from [w] to [w'] only moved the clock
    forward, took bytes out of the buffer and wrote to the log. *)
Record touches_reader (w w' : World) : Prop := {
  tr_now : now w <= now w';
  tr_deadline : deadline w' = deadline w;
  tr_buffer : (length (buffer (reader w')) <= length (buffer (reader w)))%nat;
  tr_eof : eof_at (reader w') = eof_at (reader w);
  tr_peername : peername w' = peername w;
  tr_writer : writer_closed w' = writer_closed w;
  tr_producer : producer w' = producer w;
  tr_metrics : metrics w' = metrics w;
}.

(** A coroutine that only reads, and cannot stay suspended for ever
    once a deadline is armed. *)
Definition Reading {A : Type} (m : Task A) : Prop :=
  forall w, touches_reader w (m w).2 /\ (is_Some (deadline w) -> (m w).1 <> Pending).

Definition cancelled_at {A : Type} (d : Z) (rw : result A * World) : Prop :=
  rw.1 = Raise CancelledError /\ now rw.2 = d /\ deadline rw.2 = Some d.

(** Whether a run completed, and did so before time [d]. *)
Definition on_time {A : Type} (d : Z) (rw : result A * World) : bool :=
  match rw.1 with
  | Pending => false
  | _ => bool_decide (now rw.2 < d)
  end.

(** A coroutine whose run under a deadline [d] still ahead is its run
    without one when that completes before [d], and is cancelled at [d]
    otherwise. *)
Definition Timed {A : Type} (m : Task A) : Prop :=
  forall w d, now w < d ->
    let free := m (set_deadline None w) in
    let timed := m (set_deadline (Some d) w) in
    now w <= now free.2 /\ deadline free.2 = None /\ free.1 <> Raise CancelledError /\
    if on_time d free then timed = (free.1, set_deadline (Some d) free.2)
    else cancelled_at d timed.

(** [touches_outputs w w']: going from [w] to [w'] left the clock, the
    stream and the connection alone; only the producer, the metrics and
    the log may differ. *)
Record touches_outputs (w w' : World) : Prop := {
  to_now : now w' = now w;
  to_deadline : deadline w' = deadline w;
  to_reader : reader w' = reader w;
  to_peername : peername w' = peername w;
  to_writer : writer_closed w' = writer_closed w;
}.

(** A coroutine that never waits. *)
Definition Handling {A : Type} (m : Task A) : Prop :=
  forall w, touches_outputs w (m w).2 /\ (m w).1 <> Pending.

(** ** The connection as a state machine

    The handlers of the two enclosing blocks, innermost first: what
    runs when the loop of [client_connected_cb] is left. *)
Definition teardown (peer : string) : Task unit :=
  connected_add (-1);; log_emit (InfoClosing peer);; writer_close.

(** The world in which the loop is entered: the connection is logged
    and counted. *)
Definition entered (w0 : World) : World :=
  (connected_add 1 (log_emit (InfoConnected (peername w0)) w0).2).2.

(** [awaiting_frame timeout w0 w]: the connection accepted in [w0] is in
    [w] at the top of its loop, about to read a frame. *)
Inductive awaiting_frame `{Imports} (timeout : Z) (w0 : World) : World -> Prop :=
  | awaiting_first :
      awaiting_frame timeout w0 (entered w0)
  | awaiting_next (w w' : World) :
      awaiting_frame timeout w0 w ->
      process timeout w = (Return tt, w') ->
      awaiting_frame timeout w0 w'.

(** ** A cap on segment lengths, stated for [read]

    What it would mean for [read] to refuse a segment longer than
    [bound]: every complete frame with such a segment makes it raise. *)
Definition rejects_oversized (bound : Z) : Prop :=
  forall (w : World) (bin_data voe_data txt_data payload : bytes)
         (chunk rest : list (Z * byte)),
    length bin_data = 160%nat ->
    frame_bytes bin_data voe_data txt_data = Some payload ->
    buffer (reader w) = chunk ++ rest ->
    chunk.*2 = payload ->
    deadline w = None ->
    bound < Z.of_nat (length voe_data) \/ bound < Z.of_nat (length txt_data) ->
    exists e w', read w = (Raise e, w').

(** ** What a read can end with, and what a round keeps

    The exceptions of a bare [read] on a stream of bytes. *)
Definition read_error (e : exn) : Prop :=
  match e with
  | ValueError | IncompleteReadError _ _ | CancelledError => True
  | TimeoutError | XMLSyntaxError | AttributeError | StructError => False
  end.

(** A coroutine that only adds to the log. *)
Definition Logging {A : Type} (m : Task A) : Prop :=
  forall w, log w `prefix_of` log (m w).2.

(** [round_keeps w w']: what holds between the world before and after
    any number of rounds of the loop. Nothing published or logged is
    taken back; the gauge and the connection are left alone. *)
Record round_keeps (w w' : World) : Prop := {
  rk_now : now w <= now w';
  rk_deadline : deadline w' = deadline w;
  rk_peername : peername w' = peername w;
  rk_writer : writer_closed w' = writer_closed w;
  rk_connected : connected (metrics w') = connected (metrics w);
  rk_iamalive : (iamalive (metrics w) <= iamalive (metrics w'))%nat;
  rk_log : log w `prefix_of` log w';
  rk_produced : produced (producer w) `prefix_of` produced (producer w');
}.

(** ** A stream of notices

    The messages one notice gives rise to: none for a heartbeat, three
    for a notice whose VOEvent payload parses and carries a type
    code. *)
Definition publications `{Imports} (notice : bytes * bytes * bytes) : list (string * bytes) :=
  let '(bin_data, voe_data, txt_data) := notice in
  match int4.unpack_from bin_data with
  | Some t =>
      if bool_decide (t ∈ ignore_notice_types) then []
      else
        match get_notice_type <$> fromstring voe_data with
        | Some (returns tv) =>
            [ (topic_for_notice_type_str (notice_type_int_to_str t) "binary", bin_data);
              (topic_for_notice_type_str (notice_type_int_to_str tv) "voevent", voe_data);
              (topic_for_notice_type_str (notice_type_int_to_str t) "text", txt_data) ]
        | _ => []
        end
  | None => []
  end.

(** A notice the handler gets through: it can be framed, and it is a
    heartbeat or its VOEvent payload parses and carries a type code. *)
Definition acceptable `{Imports} (notice : bytes * bytes * bytes) : Prop :=
  length notice.1.1 = 160%nat /\
  is_Some (frame_bytes notice.1.1 notice.1.2 notice.2) /\
  exists t, int4.unpack_from notice.1.1 = Some t /\
            (t ∈ ignore_notice_types \/
             exists doc tv, fromstring notice.1.2 = Some doc /\
                            get_notice_type doc = returns tv).

(** The notices one after the other on the wire. *)
Definition wire (notices : list (bytes * bytes * bytes)) : bytes :=
  flat_map (fun notice => default [] (frame_bytes notice.1.1 notice.1.2 notice.2)) notices.

(** Sample streams: a notice whose encodings differ followed by a
    heartbeat, and the same two followed by a notice whose VOEvent
    payload is not XML and by two more bytes. *)
Module sample_stream.

Definition notices : list (bytes * bytes * bytes) :=
  [ (sample.bin_block 100, sample.voe_101, sample.txt);
    (sample.bin_block 3, sample.not_xml, sample.txt) ].

Definition w_two : World := sample.peer_sends 0 (wire notices) (Some 5).

Definition w_broken : World :=
  sample.peer_sends 0
    (wire notices ++ sample.frame 100 sample.not_xml ++ [x01; x02]) None.

End sample_stream.

(** ** Facts about the byte layer *)

Lemma byte_to_Z_range (b : byte) : 0 <= byte_to_Z b < 256.
Proof.
  unfold byte_to_Z. pose proof (Byte.to_N_bounded b). lia.
Qed.

Lemma byte_to_of_Z (z : Z) : 0 <= z < 256 -> byte_to_Z (byte_of_Z z) = z.
Proof.
  intros Hz. unfold byte_to_Z, byte_of_Z.
  destruct (Byte.of_N (Z.to_N z)) as [b|] eqn:E.
  - apply Byte.to_of_N in E. rewrite E. lia.
  - apply Byte.of_N_None_iff in E. lia.
Qed.

Lemma lor_shiftl_add (hi lo k : Z) :
  0 <= k -> 0 <= lo < 2 ^ k -> Z.lor (Z.shiftl hi k) lo = hi * 2 ^ k + lo.
Proof.
  intros Hk Hlo.
  rewrite <- Z.shiftl_mul_pow2 by lia.
  rewrite <- Z.add_lor_land.
  assert (E : Z.land (Z.shiftl hi k) lo = 0); [|lia].
  apply Z.bits_inj'; intros n Hn.
  rewrite Z.land_spec, Z.bits_0.
  destruct (Z.lt_ge_cases n k) as [Hlt|Hge].
  - rewrite Z.shiftl_spec_low by lia. reflexivity.
  - destruct (Z.eq_dec lo 0) as [->|Hne].
    + rewrite Z.bits_0. apply andb_false_r.
    + rewrite (Z.bits_above_log2 lo n); [apply andb_false_r|lia|].
      apply Z.log2_lt_pow2; [lia|].
      eapply Z.lt_le_trans; [apply Hlo|]. apply Z.pow_le_mono_r; lia.
Qed.

Lemma unsigned_sum (b0 b1 b2 b3 : byte) :
  int4.unsigned b0 b1 b2 b3 =
  byte_to_Z b0 * 2 ^ 24 + byte_to_Z b1 * 2 ^ 16 + byte_to_Z b2 * 2 ^ 8 + byte_to_Z b3.
Proof.
  unfold int4.unsigned.
  pose proof (byte_to_Z_range b0). pose proof (byte_to_Z_range b1).
  pose proof (byte_to_Z_range b2). pose proof (byte_to_Z_range b3).
  rewrite (lor_shiftl_add (byte_to_Z b2) _ 8) by lia.
  rewrite (lor_shiftl_add (byte_to_Z b1) _ 16) by lia.
  rewrite (lor_shiftl_add (byte_to_Z b0) _ 24) by lia.
  lia.
Qed.

Lemma unsigned_range (b0 b1 b2 b3 : byte) :
  0 <= int4.unsigned b0 b1 b2 b3 < 2 ^ 32.
Proof.
  rewrite unsigned_sum.
  pose proof (byte_to_Z_range b0). pose proof (byte_to_Z_range b1).
  pose proof (byte_to_Z_range b2). pose proof (byte_to_Z_range b3).
  lia.
Qed.

Lemma to_signed_spec (u : Z) :
  0 <= u < 2 ^ 32 ->
  int4.to_signed u = if bool_decide (2 ^ 31 <= u) then u - 2 ^ 32 else u.
Proof.
  intros Hu. unfold int4.to_signed.
  destruct (Z.testbit u 31) eqn:E.
  - apply Z.testbit_true in E; [|lia].
    rewrite bool_decide_true; [reflexivity|].
    revert E. generalize (Z.div_mod u (2 ^ 31)).
    generalize (Z.mod_pos_bound u (2 ^ 31)).
    generalize (Z.div_mod (u / 2 ^ 31) 2). lia.
  - apply Z.testbit_false in E; [|lia].
    rewrite bool_decide_false; [reflexivity|].
    revert E. generalize (Z.div_mod u (2 ^ 31)).
    generalize (Z.mod_pos_bound u (2 ^ 31)).
    generalize (Z.div_mod (u / 2 ^ 31) 2). lia.
Qed.

Lemma to_signed_range (u : Z) :
  0 <= u < 2 ^ 32 -> int4.min_value <= int4.to_signed u <= int4.max_value.
Proof.
  intros Hu. rewrite to_signed_spec by done.
  unfold int4.min_value, int4.max_value. case_bool_decide; lia.
Qed.

Lemma land_255 (x : Z) : Z.land x 255 = x mod 256.
Proof. change 255 with (Z.ones 8). rewrite Z.land_ones by lia. reflexivity. Qed.

(** Unpacking what [pack] produced gives the number back. *)
Lemma unpack_pack (z : Z) (buf : bytes) :
  int4.pack z = Some buf -> int4.unpack buf = Some z.
Proof.
  unfold int4.pack. case_bool_decide as Hz; [|done].
  intros [= <-]. unfold int4.unpack. f_equal.
  unfold int4.min_value, int4.max_value in Hz.
  set (u := z mod 2 ^ 32).
  assert (Hu : 0 <= u < 2 ^ 32) by (apply Z.mod_pos_bound; lia).
  assert (Hsum : int4.unsigned (byte_of_Z (Z.land (Z.shiftr u 24) 255))
                   (byte_of_Z (Z.land (Z.shiftr u 16) 255))
                   (byte_of_Z (Z.land (Z.shiftr u 8) 255))
                   (byte_of_Z (Z.land u 255)) = u).
  { rewrite unsigned_sum, !land_255, !Z.shiftr_div_pow2 by lia.
    rewrite !byte_to_of_Z by (apply Z.mod_pos_bound; lia).
    clear -Hu. Z.div_mod_to_equations. lia. }
  rewrite Hsum, to_signed_spec by done.
  subst u. case_bool_decide; Z.div_mod_to_equations; lia.
Qed.

Lemma pack_length (z : Z) (buf : bytes) :
  int4.pack z = Some buf -> length buf = 4%nat.
Proof.
  unfold int4.pack. case_bool_decide; [|done]. by intros [= <-].
Qed.

Lemma pack_is_Some (z : Z) :
  is_Some (int4.pack z) <-> int4.min_value <= z <= int4.max_value.
Proof.
  unfold int4.pack. case_bool_decide; split; intros H'; done.
Qed.

Lemma unpack_range (buf : bytes) (z : Z) :
  int4.unpack buf = Some z -> int4.min_value <= z <= int4.max_value.
Proof.
  destruct buf as [|b0 [|b1 [|b2 [|b3 [|]]]]]; try done.
  intros [= <-]. apply to_signed_range, unsigned_range.
Qed.

Lemma unpack_is_Some (buf : bytes) :
  length buf = 4%nat -> is_Some (int4.unpack buf).
Proof.
  destruct buf as [|b0 [|b1 [|b2 [|b3 [|]]]]]; done.
Qed.

(** ** Worlds and the clock *)

Lemma set_deadline_same (w : World) (d : option Z) :
  deadline w = d -> set_deadline d w = w.
Proof. intros <-. by destruct w. Qed.

Lemma set_now_same (w : World) : set_now (now w) w = w.
Proof. by destruct w. Qed.

Lemma set_reader_same (w : World) :
  set_reader {| buffer := buffer (reader w); eof_at := eof_at (reader w) |} w = w.
Proof. destruct w as [? ? [] ? ? ? ? ?]. reflexivity. Qed.

Lemma ready_at_ge (t : Z) (chunk : list (Z * byte)) : t <= ready_at t chunk.
Proof. induction chunk as [|x l IH]; simpl; lia. Qed.

Lemma ready_at_max (s t : Z) (chunk : list (Z * byte)) :
  ready_at (Z.max s t) chunk = Z.max s (ready_at t chunk).
Proof. induction chunk as [|x l IH]; simpl; lia. Qed.

Lemma ready_at_mono (s t : Z) (chunk : list (Z * byte)) :
  s <= t -> ready_at s chunk <= ready_at t chunk.
Proof. intros Hst. induction chunk as [|x l IH]; simpl; lia. Qed.

Lemma ready_at_app (t : Z) (a b : list (Z * byte)) :
  ready_at t (a ++ b) = ready_at (ready_at t a) b.
Proof.
  induction a as [|x a IH]; simpl; [done|].
  rewrite IH, ready_at_max. done.
Qed.

Lemma ready_at_arriving (t s : Z) (data : bytes) :
  s <= t -> ready_at s (arriving t data) = if data is [] then s else t.
Proof.
  intros Hst. induction data as [|b l IH]; simpl; [done|].
  fold (arriving t l). rewrite IH. destruct l; lia.
Qed.

Lemma arriving_bytes (t : Z) (data : bytes) : (arriving t data).*2 = data.
Proof.
  unfold arriving. rewrite <- list_fmap_compose. apply list_fmap_id.
Qed.

(** ** Running a coroutine step by step *)

Lemma bind_Return {A B : Type} (m : Task A) (f : A -> Task B) (w w' : World) (a : A) :
  m w = (Return a, w') -> (m ≫= f) w = f a w'.
Proof. unfold mbind, Task_bind. by intros ->. Qed.

Lemma bind_Raise {A B : Type} (m : Task A) (f : A -> Task B) (w w' : World) (e : exn) :
  m w = (Raise e, w') -> (m ≫= f) w = (Raise e, w').
Proof. unfold mbind, Task_bind. by intros ->. Qed.

Lemma bind_Pending {A B : Type} (m : Task A) (f : A -> Task B) (w w' : World) :
  m w = (Pending, w') -> (m ≫= f) w = (Pending, w').
Proof. unfold mbind, Task_bind. by intros ->. Qed.

(** ** [readexactly] with no deadline armed *)

(** When the buffer will hold the chunk asked for, the chunk is handed
    over at the time its last byte is in. *)
Lemma readexactly_chunk (n : Z) (w : World) (chunk rest : list (Z * byte)) :
  buffer (reader w) = chunk ++ rest ->
  Z.of_nat (length chunk) = n ->
  deadline w = None ->
  readexactly n w =
    (Return chunk.*2,
     set_now (ready_at (now w) chunk)
       (set_reader {| buffer := rest; eof_at := eof_at (reader w) |} w)).
Proof.
  intros Hbuf Hn Hd. unfold readexactly.
  rewrite bool_decide_false by lia.
  case_bool_decide as Hz.
  - assert (chunk = []) as -> by (destruct chunk; simpl in *; [done|lia]).
    simpl in *. rewrite <- Hbuf, set_reader_same, set_now_same. done.
  - rewrite bool_decide_true by (rewrite Hbuf, length_app; lia).
    unfold await_until, take_exactly. rewrite Hd. simpl.
    replace (Z.to_nat n) with (length chunk) by lia.
    rewrite Hbuf, take_app_length, drop_app_length. done.
Qed.

(** When the peer closes before the chunk is complete, what is left of
    the buffer goes into the exception. *)
Lemma readexactly_short (n te : Z) (w : World) :
  (length (buffer (reader w)) < Z.to_nat n)%nat ->
  eof_at (reader w) = Some te ->
  deadline w = None ->
  readexactly n w =
    (Raise (IncompleteReadError (buffer (reader w)).*2 n),
     set_reader {| buffer := []; eof_at := Some te |}
       (set_now (ready_at (Z.max (now w) te) (buffer (reader w))) w)).
Proof.
  intros Hlen He Hd. unfold readexactly.
  rewrite !bool_decide_false by lia.
  rewrite He. unfold await_until, incomplete_read. rewrite Hd. simpl.
  rewrite He. done.
Qed.

(** ** [read] with no deadline armed *)

Lemma frame_bytes_Some (bin_data voe_data txt_data payload : bytes) :
  frame_bytes bin_data voe_data txt_data = Some payload ->
  exists voe_len txt_len,
    int4.pack (Z.of_nat (length voe_data)) = Some voe_len /\
    int4.pack (Z.of_nat (length txt_data)) = Some txt_len /\
    payload = bin_data ++ voe_len ++ voe_data ++ txt_len ++ txt_data.
Proof.
  unfold frame_bytes. intros Hf.
  destruct (int4.pack (Z.of_nat (length voe_data))) as [l1|]; [|done].
  destruct (int4.pack (Z.of_nat (length txt_data))) as [l2|]; [|done].
  simpl in Hf. injection Hf as <-. by exists l1, l2.
Qed.

Lemma frame_bytes_is_Some (bin_data voe_data txt_data : bytes) :
  is_Some (frame_bytes bin_data voe_data txt_data) <->
  Z.of_nat (length voe_data) <= int4.max_value /\
  Z.of_nat (length txt_data) <= int4.max_value.
Proof.
  unfold frame_bytes. split.
  - intros [payload Hf].
    destruct (int4.pack (Z.of_nat (length voe_data))) as [l1|] eqn:E1; [|done].
    destruct (int4.pack (Z.of_nat (length txt_data))) as [l2|] eqn:E2; [|done].
    pose proof (proj1 (pack_is_Some _) (mk_is_Some _ _ E1)).
    pose proof (proj1 (pack_is_Some _) (mk_is_Some _ _ E2)). lia.
  - intros [Hv Hx].
    destruct (proj2 (pack_is_Some (Z.of_nat (length voe_data)))) as [l1 ->];
      [unfold int4.min_value; lia|].
    destruct (proj2 (pack_is_Some (Z.of_nat (length txt_data)))) as [l2 ->];
      [unfold int4.min_value; lia|].
    by eexists.
Qed.

Lemma read_frame (w : World) (bin_data voe_data txt_data payload : bytes)
    (chunk rest : list (Z * byte)) :
  length bin_data = 160%nat ->
  frame_bytes bin_data voe_data txt_data = Some payload ->
  buffer (reader w) = chunk ++ rest ->
  chunk.*2 = payload ->
  deadline w = None ->
  read w =
    (Return (bin_data, voe_data, txt_data),
     set_log (log w ++ [DebugRead 160 (Z.of_nat (length voe_data))
                          (Z.of_nat (length txt_data))])
       (set_now (ready_at (now w) chunk)
          (set_reader {| buffer := rest; eof_at := eof_at (reader w) |} w))).
Proof.
  intros Hbin Hf Hbuf Hchunk Hd.
  apply frame_bytes_Some in Hf as (l1 & l2 & Hl1 & Hl2 & ->).
  apply fmap_app_inv in Hchunk as (cb & ca & Hcb & Hc & ->).
  symmetry in Hc. apply fmap_app_inv in Hc as (c1 & cc & Hc1 & Hc & ->).
  symmetry in Hc. apply fmap_app_inv in Hc as (cv & cd & Hcv & Hc & ->).
  symmetry in Hc. apply fmap_app_inv in Hc as (c2 & cx & Hc2 & Hcx & ->).
  pose proof (pack_length _ _ Hl1) as Hlen1.
  pose proof (pack_length _ _ Hl2) as Hlen2.
  rewrite <- !app_assoc in Hbuf.
  unfold read.
  erewrite bind_Return; cycle 1.
  { apply (readexactly_chunk _ _ cb); [exact Hbuf| |done].
    rewrite <- (length_fmap snd), <- Hcb, Hbin. done. }
  erewrite bind_Return; cycle 1.
  { erewrite bind_Return; cycle 1.
    { apply (readexactly_chunk _ _ c1); [reflexivity| |done].
      rewrite <- (length_fmap snd), <- Hc1, Hlen1. done. }
    rewrite <- Hc1. simpl. rewrite (unpack_pack _ _ Hl1). reflexivity. }
  erewrite bind_Return; cycle 1.
  { apply (readexactly_chunk _ _ cv); [reflexivity| |done].
    rewrite <- (length_fmap snd), <- Hcv. done. }
  erewrite bind_Return; cycle 1.
  { erewrite bind_Return; cycle 1.
    { apply (readexactly_chunk _ _ c2); [reflexivity| |done].
      rewrite <- (length_fmap snd), <- Hc2, Hlen2. done. }
    rewrite <- Hc2. simpl. rewrite (unpack_pack _ _ Hl2). reflexivity. }
  erewrite bind_Return; cycle 1.
  { apply (readexactly_chunk _ _ cx); [reflexivity| |done].
    rewrite <- (length_fmap snd), <- Hcx. done. }
  rewrite <- Hcb, <- Hcv, <- Hcx, !ready_at_app. reflexivity.
Qed.

(** ** Coroutines that only read *)

Lemma touches_reader_refl (w : World) : touches_reader w w.
Proof. by split. Qed.

Lemma touches_reader_trans (w1 w2 w3 : World) :
  touches_reader w1 w2 -> touches_reader w2 w3 -> touches_reader w1 w3.
Proof.
  intros [] []. split; try congruence; lia.
Qed.

Lemma Reading_ret {A : Type} (a : A) : Reading (mret a : Task A).
Proof. intros w. split; [apply touches_reader_refl|done]. Qed.

Lemma Reading_raise {A : Type} (e : exn) : Reading (raise e : Task A).
Proof. intros w. split; [apply touches_reader_refl|done]. Qed.

Lemma Reading_bind {A B : Type} (m : Task A) (f : A -> Task B) :
  Reading m -> (forall a, Reading (f a)) -> Reading (m ≫= f).
Proof.
  intros Hm Hf w. destruct (Hm w) as [Ht Hp].
  unfold mbind, Task_bind.
  destruct (m w) as [[a| e |] w1]; simpl in *;
    [|(split; [assumption|intros Hd; specialize (Hp Hd); congruence])..].
  destruct (Hf a w1) as [Ht' Hp']. split.
  - by eapply touches_reader_trans.
  - intros Hd. apply Hp'. by rewrite (tr_deadline _ _ Ht).
Qed.

Lemma Reading_from_struct {A : Type} (o : option A) : Reading (from_struct o).
Proof. destruct o; [apply Reading_ret|apply Reading_raise]. Qed.

Lemma Reading_log_emit (r : LogRecord) : Reading (log_emit r).
Proof. intros w. split; [by split|done]. Qed.

Lemma Reading_readexactly (n : Z) : Reading (readexactly n).
Proof.
  intros w. unfold readexactly, await_until, await_forever, cancel,
    take_exactly, incomplete_read.
  pose proof (ready_at_ge (now w) (take (Z.to_nat n) (buffer (reader w)))).
  repeat case_bool_decide; try (split; [apply touches_reader_refl|done]).
  - destruct (deadline w) as [d|] eqn:Hd; [case_bool_decide|];
      (split; [split; simpl; rewrite ?length_drop; try done; lia | done]).
  - destruct (eof_at (reader w)) as [te|] eqn:He.
    + pose proof (ready_at_ge (Z.max (now w) te) (buffer (reader w))).
      destruct (deadline w) as [d|] eqn:Hd; [case_bool_decide|];
        (split; [split; simpl; try done; lia | done]).
    + destruct (deadline w) as [d|] eqn:Hd;
        (split; [split; simpl; try done; lia | ]); [done|by intros []].
Qed.

(** ** Coroutines under a deadline *)

Lemma Timed_ret {A : Type} (a : A) : Timed (mret a : Task A).
Proof.
  intros w d Hd. unfold on_time. simpl.
  rewrite bool_decide_true by done. done.
Qed.

Lemma Timed_raise {A : Type} (e : exn) :
  e <> CancelledError -> Timed (raise e : Task A).
Proof.
  intros He w d Hd. unfold on_time. simpl.
  rewrite bool_decide_true by done. repeat split; [lia|congruence].
Qed.

Lemma Timed_from_struct {A : Type} (o : option A) : Timed (from_struct o).
Proof. destruct o; [apply Timed_ret|by apply Timed_raise]. Qed.

Lemma Timed_log_emit (r : LogRecord) : Timed (log_emit r).
Proof.
  intros w d Hd. unfold on_time. simpl.
  rewrite bool_decide_true by done. done.
Qed.

Lemma Timed_bind {A B : Type} (m : Task A) (f : A -> Task B) :
  Timed m -> (forall a, Timed (f a)) -> Timed (m ≫= f).
Proof.
  intros Hm Hf w d Hd.
  destruct (Hm w d Hd) as (Hle & Hnone & Hnc & Hrun). clear Hm.
  unfold mbind, Task_bind, on_time in *.
  destruct (m (set_deadline None w)) as [[a|e|] w1]; simpl in *.
  - rewrite <- (set_deadline_same w1 None Hnone).
    case_bool_decide as Hw1.
    + rewrite Hrun.
      destruct (Hf a w1 d Hw1) as (Hle' & Hnone' & Hnc' & Hrun').
      repeat split; [lia|done..].
    + destruct (Hf a w1 (now w1 + 1)) as (Hle' & Hnone' & Hnc' & _); [lia|].
      repeat split; [lia|done..|].
      destruct Hrun as (Hr & Hn & Hdl).
      destruct (m (set_deadline (Some d) w)) as [r2 w2]; simpl in *. subst r2.
      destruct (f a (set_deadline None w1)) as [[b|e|] w3]; simpl in *;
        rewrite ?bool_decide_false by lia; by repeat split.
  - refine (conj Hle (conj Hnone (conj _ _))); [congruence|].
    case_bool_decide.
    + by rewrite Hrun.
    + destruct Hrun as (Hr & Hn & Hdl).
      destruct (m (set_deadline (Some d) w)) as [r2 w2]; simpl in *.
      subst r2. by repeat split.
  - refine (conj Hle (conj Hnone (conj _ _))); [done|].
    destruct Hrun as (Hr & Hn & Hdl).
    destruct (m (set_deadline (Some d) w)) as [r2 w2]; simpl in *.
    subst r2. by repeat split.
Qed.

Lemma Timed_readexactly (n : Z) : Timed (readexactly n).
Proof.
  intros w d Hd.
  unfold readexactly, on_time, cancelled_at. simpl.
  case_bool_decide as Hneg.
  { simpl. rewrite bool_decide_true by done. done. }
  case_bool_decide as Hzero.
  { simpl. rewrite bool_decide_true by done. done. }
  case_bool_decide as Hlen.
  { unfold await_until, cancel, take_exactly. simpl.
    pose proof (ready_at_ge (now w) (take (Z.to_nat n) (buffer (reader w)))).
    repeat case_bool_decide; simpl; repeat split; try done; lia. }
  destruct (eof_at (reader w)) as [te|] eqn:He.
  - unfold await_until, cancel, incomplete_read. simpl.
    pose proof (ready_at_ge (Z.max (now w) te) (buffer (reader w))).
    repeat case_bool_decide; simpl; repeat split; try done; lia.
  - unfold await_forever, cancel. simpl. repeat split; try done; lia.
Qed.

(** ** [read] only reads, and respects the deadline *)

Lemma Reading_read : Reading read.
Proof.
  unfold read.
  repeat first
    [ apply Reading_bind; [|intros ?]
    | apply Reading_readexactly
    | apply Reading_from_struct
    | apply Reading_log_emit
    | apply Reading_ret ].
Qed.

Lemma Timed_read : Timed read.
Proof.
  unfold read.
  repeat first
    [ apply Timed_bind; [|intros ?]
    | apply Timed_readexactly
    | apply Timed_from_struct
    | apply Timed_log_emit
    | apply Timed_ret ].
Qed.

(** With the deadline already behind, the first wait of [read] is
    cancelled at once. *)
Lemma read_deadline_passed (w : World) (d : Z) :
  deadline w = Some d -> d <= now w ->
  read w = (Raise CancelledError, w).
Proof.
  intros Hd Hle. unfold read. apply bind_Raise.
  unfold readexactly, bin_len. simpl.
  pose proof (ready_at_ge (now w) (take (Z.to_nat 160) (buffer (reader w)))).
  assert (Hw : set_now (Z.max (now w) d) w = w).
  { rewrite Z.max_l by lia. apply set_now_same. }
  case_bool_decide.
  - unfold await_until, cancel. rewrite Hd.
    rewrite bool_decide_true by lia. by rewrite Hw.
  - destruct (eof_at (reader w)) as [te|].
    + pose proof (ready_at_ge (Z.max (now w) te) (buffer (reader w))).
      unfold await_until, cancel. rewrite Hd.
      rewrite bool_decide_true by lia. by rewrite Hw.
    + unfold await_forever, cancel. rewrite Hd. by rewrite Hw.
Qed.

(** ** [wait_for] *)

Lemma wait_for_Reading {A : Type} (m : Task A) (timeout : Z) (w : World) :
  Reading m ->
  touches_reader w (wait_for m timeout w).2 /\ (wait_for m timeout w).1 <> Pending.
Proof.
  intros Hm. unfold wait_for.
  destruct (Hm (set_deadline (Some (now w + timeout)) w)) as [[] Hp].
  specialize (Hp ltac:(by eexists)).
  destruct (m (set_deadline (Some (now w + timeout)) w)) as [[a|e|] w'];
    simpl in *; [|destruct e|done]; (split; [by split|done]).
Qed.

Lemma wait_for_on_time {A : Type} (m : Task A) (timeout : Z) (w : World) :
  Timed m -> deadline w = None ->
  on_time (now w + timeout) (m w) = true ->
  wait_for m timeout w = m w.
Proof.
  intros Hm Hd Hon.
  assert (Hlt : now w < now w + timeout).
  { destruct (Hm w (now w + 1)) as (Hle & _); [lia|].
    rewrite (set_deadline_same w None Hd) in Hle.
    unfold on_time in Hon.
    destruct (m w) as [[a|e|] w1]; simpl in *; [| |done];
      apply bool_decide_eq_true in Hon; lia. }
  destruct (Hm w _ Hlt) as (_ & Hnone & Hnc & Hrun).
  rewrite (set_deadline_same w None Hd) in *. rewrite Hon in Hrun.
  unfold wait_for. rewrite Hrun, Hd.
  destruct (m w) as [r w1]; simpl in *.
  assert (set_deadline None (set_deadline (Some (now w + timeout)) w1) = w1) as ->.
  { rewrite <- (set_deadline_same w1 None Hnone) at 2. done. }
  destruct r as [a|e|]; [done| |done]. by destruct e.
Qed.

Lemma wait_for_late {A : Type} (m : Task A) (timeout : Z) (w : World) :
  Timed m -> deadline w = None -> 0 < timeout ->
  on_time (now w + timeout) (m w) = false ->
  exists w', wait_for m timeout w = (Raise TimeoutError, w') /\
             now w' = now w + timeout.
Proof.
  intros Hm Hd Hpos Hon.
  destruct (Hm w (now w + timeout)) as (_ & _ & _ & Hrun); [lia|].
  rewrite (set_deadline_same w None Hd) in *. rewrite Hon in Hrun.
  destruct Hrun as (Hr & Hn & _).
  unfold wait_for.
  destruct (m (set_deadline (Some (now w + timeout)) w)) as [r w1]; simpl in *.
  subst r. eexists. split; [done|]. done.
Qed.

(** The deadline of [wait_for read]: the frame is read as if there were
    no deadline when all of it is in before [timeout] has passed, and
    the read ends in [TimeoutError] at the deadline otherwise. *)
Lemma wait_for_read (timeout : Z) (w : World) :
  deadline w = None ->
  if on_time (now w + timeout) (read w)
  then wait_for read timeout w = read w
  else exists w', wait_for read timeout w = (Raise TimeoutError, w') /\
                  now w' = Z.max (now w) (now w + timeout).
Proof.
  intros Hd. destruct (on_time _ _) eqn:Hon.
  - by apply wait_for_on_time; [apply Timed_read|..].
  - destruct (Z.lt_ge_cases 0 timeout) as [Hpos|Hneg].
    + destruct (wait_for_late read timeout w) as (w' & Hw' & Hn);
        [apply Timed_read|done..|].
      exists w'. split; [done|lia].
    + exists w. split; [|lia].
      unfold wait_for.
      rewrite (read_deadline_passed _ (now w + timeout)); [|done|simpl; lia].
      rewrite Hd. f_equal.
      transitivity (set_deadline None w); [done|by apply set_deadline_same].
Qed.

(** ** Coroutines that never wait *)

Lemma touches_outputs_refl (w : World) : touches_outputs w w.
Proof. by split. Qed.

Lemma touches_outputs_trans (w1 w2 w3 : World) :
  touches_outputs w1 w2 -> touches_outputs w2 w3 -> touches_outputs w1 w3.
Proof. intros [] []. split; congruence. Qed.

Lemma Handling_ret {A : Type} (a : A) : Handling (mret a : Task A).
Proof. intros w. split; [apply touches_outputs_refl|done]. Qed.

Lemma Handling_raise {A : Type} (e : exn) : Handling (raise e : Task A).
Proof. intros w. split; [apply touches_outputs_refl|done]. Qed.

Lemma Handling_bind {A B : Type} (m : Task A) (f : A -> Task B) :
  Handling m -> (forall a, Handling (f a)) -> Handling (m ≫= f).
Proof.
  intros Hm Hf w. destruct (Hm w) as [Ht Hp].
  unfold mbind, Task_bind.
  destruct (m w) as [[a|e|] w1]; simpl in *; [|by split|done].
  destruct (Hf a w1) as [Ht' Hp']. split; [|done].
  by eapply touches_outputs_trans.
Qed.

Lemma Handling_from_struct {A : Type} (o : option A) : Handling (from_struct o).
Proof. destruct o; [apply Handling_ret|apply Handling_raise]. Qed.

Lemma Handling_log_emit (r : LogRecord) : Handling (log_emit r).
Proof. intros w. by split. Qed.

Lemma Handling_iamalive_inc : Handling iamalive_inc.
Proof. intros w. by split. Qed.

Lemma Handling_received_inc (labels : Z * string * string) :
  Handling (received_inc labels).
Proof. intros w. by split. Qed.

Lemma Handling_produce (topic : string) (data : bytes) : Handling (produce topic data).
Proof. intros w. by split. Qed.

Lemma Handling_poll : Handling poll.
Proof. intros w. by split. Qed.

Lemma Handling_for_each {A : Type} (xs : list A) (body : A -> Task unit) :
  (forall x, Handling (body x)) -> Handling (for_each xs body).
Proof.
  intros Hb. induction xs as [|x xs IH]; simpl.
  - apply Handling_ret.
  - apply Handling_bind; [apply Hb|intros _; apply IH].
Qed.

Section handling.
Context `{Imports}.

Lemma Handling_lxml_fromstring (data : bytes) : Handling (lxml_fromstring data).
Proof.
  unfold lxml_fromstring.
  destruct (fromstring data); [apply Handling_ret|apply Handling_raise].
Qed.

Lemma Handling_gcn_get_notice_type (voe : Element) :
  Handling (gcn_get_notice_type voe).
Proof.
  unfold gcn_get_notice_type.
  destruct (get_notice_type voe); [apply Handling_ret|apply Handling_raise].
Qed.

Lemma Handling_dispatch (frame : bytes * bytes * bytes) : Handling (dispatch frame).
Proof.
  destruct frame as [[bin_data voe_data] txt_data]. unfold dispatch.
  apply Handling_bind; [apply Handling_iamalive_inc|intros _].
  apply Handling_bind; [apply Handling_from_struct|intros t].
  apply Handling_bind; [apply Handling_log_emit|intros _].
  case_bool_decide; [apply Handling_ret|].
  apply Handling_bind; [apply Handling_lxml_fromstring|intros doc].
  apply Handling_bind; [apply Handling_gcn_get_notice_type|intros tv].
  apply Handling_bind.
  { case_bool_decide; [apply Handling_log_emit|apply Handling_ret]. }
  intros _. apply Handling_bind; [|intros _; apply Handling_poll].
  apply Handling_for_each. intros [[t' data] flavor].
  apply Handling_bind; [apply Handling_received_inc|intros _].
  apply Handling_produce.
Qed.

End handling.

(** ** What [dispatch] does with a frame *)

Section dispatch.
Context `{Imports}.

(** A heartbeat is counted and dropped. *)
Lemma dispatch_heartbeat (w : World) (bin_data voe_data txt_data : bytes) (t : Z) :
  int4.unpack_from bin_data = Some t ->
  t ∈ ignore_notice_types ->
  dispatch (bin_data, voe_data, txt_data) w =
    (Return tt,
     set_log (log w ++ [InfoReceived t])
       (set_metrics {| iamalive := S (iamalive (metrics w));
                       received := received (metrics w);
                       connected := connected (metrics w) |} w)).
Proof.
  intros Ht Hin. unfold dispatch.
  unfold mbind, Task_bind, iamalive_inc, from_struct, log_emit. simpl.
  rewrite Ht. simpl. by rewrite bool_decide_true.
Qed.

(** A notice whose VOEvent payload is not XML is counted, and nothing
    else happens before the exception. *)
Lemma dispatch_malformed (w : World) (bin_data voe_data txt_data : bytes) (t : Z) :
  int4.unpack_from bin_data = Some t ->
  t ∉ ignore_notice_types ->
  fromstring voe_data = None ->
  dispatch (bin_data, voe_data, txt_data) w =
    (Raise XMLSyntaxError,
     set_log (log w ++ [InfoReceived t])
       (set_metrics {| iamalive := S (iamalive (metrics w));
                       received := received (metrics w);
                       connected := connected (metrics w) |} w)).
Proof.
  intros Ht Hin Hx. unfold dispatch.
  unfold mbind, Task_bind, iamalive_inc, from_struct, log_emit, lxml_fromstring.
  simpl. rewrite Ht. simpl. rewrite bool_decide_false by done.
  by rewrite Hx.
Qed.

(** A notice whose VOEvent payload parses but carries no type code is
    counted, and nothing else happens before the exception. *)
Lemma dispatch_untyped (w : World) (bin_data voe_data txt_data : bytes)
    (t : Z) (doc : Element) (e : exn) :
  int4.unpack_from bin_data = Some t ->
  t ∉ ignore_notice_types ->
  fromstring voe_data = Some doc ->
  get_notice_type doc = throws e ->
  dispatch (bin_data, voe_data, txt_data) w =
    (Raise e,
     set_log (log w ++ [InfoReceived t])
       (set_metrics {| iamalive := S (iamalive (metrics w));
                       received := received (metrics w);
                       connected := connected (metrics w) |} w)).
Proof.
  intros Ht Hin Hx Hg. unfold dispatch.
  unfold mbind, Task_bind, iamalive_inc, from_struct, log_emit, lxml_fromstring,
    gcn_get_notice_type.
  simpl. rewrite Ht. simpl. rewrite bool_decide_false by done.
  rewrite Hx. simpl. by rewrite Hg.
Qed.

(** A notice with a readable VOEvent payload goes out three times. *)
Lemma dispatch_publish (w : World) (bin_data voe_data txt_data : bytes)
    (t : Z) (doc : Element) (tv : Z) :
  int4.unpack_from bin_data = Some t ->
  t ∉ ignore_notice_types ->
  fromstring voe_data = Some doc ->
  get_notice_type doc = returns tv ->
  let name := notice_type_int_to_str in
  exists w',
    dispatch (bin_data, voe_data, txt_data) w = (Return tt, w') /\
    produced (producer w') =
      produced (producer w) ++
        [ (topic_for_notice_type_str (name t) "binary", bin_data);
          (topic_for_notice_type_str (name tv) "voevent", voe_data);
          (topic_for_notice_type_str (name t) "text", txt_data) ] /\
    polls (producer w') = S (polls (producer w)) /\
    iamalive (metrics w') = S (iamalive (metrics w)) /\
    received (metrics w') =
      counter_inc (t, name t, "text"%string)
        (counter_inc (tv, name tv, "voevent"%string)
           (counter_inc (t, name t, "binary"%string) (received (metrics w)))) /\
    connected (metrics w') = connected (metrics w) /\
    log w' = log w ++ [InfoReceived t] ++
               (if bool_decide (t ≠ tv) then [WarningDiffer t tv] else []).
Proof.
  intros Ht Hin Hx Hg name. unfold dispatch.
  unfold mbind, Task_bind, iamalive_inc, from_struct, log_emit, lxml_fromstring,
    gcn_get_notice_type.
  simpl. rewrite Ht. simpl. rewrite bool_decide_false by done.
  rewrite Hx. simpl. rewrite Hg. simpl.
  destruct (bool_decide (t ≠ tv)); (eexists; split; [reflexivity|]); simpl;
    rewrite <- ?app_assoc; repeat split; reflexivity.
Qed.

End dispatch.

(** ** One round of the loop *)

Lemma bind_Return_inv {A B : Type} (m : Task A) (f : A -> Task B)
    (w w' : World) (b : B) :
  (m ≫= f) w = (Return b, w') ->
  exists a w1, m w = (Return a, w1) /\ f a w1 = (Return b, w').
Proof.
  unfold mbind, Task_bind.
  destruct (m w) as [[a|e|] w1]; [|done..]. intros Hf. by exists a, w1.
Qed.

Lemma readexactly_Return (n : Z) (w w' : World) (data : bytes) :
  readexactly n w = (Return data, w') ->
  length data = Z.to_nat n /\
  (length (buffer (reader w')) + Z.to_nat n)%nat = length (buffer (reader w)).
Proof.
  unfold readexactly, await_until, await_forever, cancel, take_exactly,
    incomplete_read.
  repeat case_bool_decide; try done.
  - intros [= <- <-]. simpl. lia.
  - destruct (deadline w); [case_bool_decide; [done|]|];
      intros [= <- <-]; simpl;
      rewrite length_fmap, length_take, length_drop; lia.
  - destruct (eof_at (reader w)), (deadline w); try done;
      by case_bool_decide.
Qed.

Lemma wait_for_Return_inv {A : Type} (m : Task A) (timeout : Z)
    (w w' : World) (a : A) :
  wait_for m timeout w = (Return a, w') ->
  exists w1, m (set_deadline (Some (now w + timeout)) w) = (Return a, w1) /\
             w' = set_deadline (deadline w) w1.
Proof.
  unfold wait_for.
  destruct (m (set_deadline (Some (now w + timeout)) w)) as [[a'|e|] w1];
    [|by destruct e|done].
  intros [= <- <-]. by exists w1.
Qed.

(** A frame that was read starts with a binary block of 160 bytes, and
    at least that much has left the buffer. *)
Lemma read_Return (w w' : World) (bin_data voe_data txt_data : bytes) :
  read w = (Return (bin_data, voe_data, txt_data), w') ->
  length bin_data = 160%nat /\
  (length (buffer (reader w')) + 160 <= length (buffer (reader w)))%nat.
Proof.
  unfold read. intros Hr.
  apply bind_Return_inv in Hr as (b & w1 & Hb & Hr).
  apply readexactly_Return in Hb as [Hlen Hbuf].
  change (Z.to_nat bin_len) with 160%nat in *.
  match type of Hr with ?t _ = _ => assert (Hrest : Reading t) end.
  { repeat first
      [ apply Reading_bind; [|intros ?]
      | apply Reading_readexactly
      | apply Reading_from_struct
      | apply Reading_log_emit
      | apply Reading_ret ]. }
  destruct (Hrest w1) as [Ht _]. rewrite Hr in Ht. simpl in Ht.
  pose proof (tr_buffer _ _ Ht).
  assert (b = bin_data) as <-.
  { repeat (apply bind_Return_inv in Hr as (? & ? & _ & Hr)).
    by injection Hr as <- _ _ _. }
  split; [done|lia].
Qed.

Section round.
Context `{Imports}.

Lemma process_frame (timeout : Z) (w : World) (frame : bytes * bytes * bytes) :
  (wait_for read timeout w).1 = Return frame ->
  process timeout w = dispatch frame (wait_for read timeout w).2.
Proof.
  unfold process, mbind, Task_bind.
  destruct (wait_for read timeout w) as [r w1]. simpl. by intros ->.
Qed.

Lemma process_read_fails (timeout : Z) (w : World) (e : exn) :
  (wait_for read timeout w).1 = Raise e ->
  process timeout w = (Raise e, (wait_for read timeout w).2).
Proof.
  unfold process, mbind, Task_bind.
  destruct (wait_for read timeout w) as [r w1]. simpl. by intros ->.
Qed.

(** A round never hangs: the read is under a deadline and the rest
    does not wait. *)
Lemma process_not_Pending (timeout : Z) (w : World) :
  (process timeout w).1 <> Pending.
Proof.
  destruct (wait_for_Reading read timeout w Reading_read) as [_ Hp].
  unfold process, mbind, Task_bind.
  destruct (wait_for read timeout w) as [[frame|e|] w1]; simpl in *; [|done..].
  apply Handling_dispatch.
Qed.

(** A round that returns has taken a whole frame out of the buffer. *)
Lemma process_consumes (timeout : Z) (w w' : World) :
  process timeout w = (Return tt, w') ->
  (length (buffer (reader w')) + 160 <= length (buffer (reader w)))%nat.
Proof.
  intros Hp. apply bind_Return_inv in Hp as ([[b v] x] & w1 & Hr & Hd).
  apply wait_for_Return_inv in Hr as (w2 & Hr & ->).
  apply read_Return in Hr as [_ Hbuf]. simpl in Hbuf.
  destruct (Handling_dispatch (b, v, x) (set_deadline (deadline w) w2)) as [Ht _].
  rewrite Hd in Ht. simpl in Ht. rewrite (to_reader _ _ Ht). simpl. lia.
Qed.

End round.

(** ** The loop and the teardown *)

Section loop.
Context `{Imports}.

Lemma process_connection (timeout : Z) (w : World) :
  deadline (process timeout w).2 = deadline w /\
  peername (process timeout w).2 = peername w /\
  writer_closed (process timeout w).2 = writer_closed w.
Proof.
  destruct (wait_for_Reading read timeout w Reading_read) as [Ht _].
  unfold process, mbind, Task_bind.
  destruct (wait_for read timeout w) as [[frame|e|] w1]; simpl in *;
    [|by destruct Ht..].
  destruct (Handling_dispatch frame w1) as [Ht' _].
  destruct Ht, Ht'. repeat split; congruence.
Qed.

Lemma forever_more_fuel (n m : nat) (timeout : Z) (w : World)
    (rw : result unit * World) :
  forever n timeout w = Some rw -> (n <= m)%nat -> forever m timeout w = Some rw.
Proof.
  revert m w. induction n as [|n IH]; intros m w Hf Hle; [done|].
  destruct m as [|m]; [lia|]. simpl in *.
  destruct (process timeout w) as [[[]|e|] w1]; [|done..].
  apply IH; [done|lia].
Qed.

(** The loop is left, by an exception, before the fuel runs out. *)
Lemma forever_enough (n : nat) (timeout : Z) (w : World) :
  (length (buffer (reader w)) < n)%nat ->
  exists e w', forever n timeout w = Some (Raise e, w').
Proof.
  revert w. induction n as [|n IH]; intros w Hlen; [lia|]. simpl.
  pose proof (process_not_Pending timeout w) as Hnp.
  destruct (process timeout w) as [[[]|e|] w1] eqn:Hp; simpl in *.
  - apply process_consumes in Hp. apply IH. lia.
  - by exists e, w1.
  - done.
Qed.

Lemma serve_raises (timeout : Z) (w : World) :
  exists e w', serve timeout w = (Raise e, w').
Proof.
  unfold serve, enough_fuel.
  destruct (forever_enough (S (length (buffer (reader w)))) timeout w)
    as (e & w' & ->); [lia|].
  by exists e, w'.
Qed.

(** [serve] is the loop: one round, and again unless the round raised. *)
Lemma serve_unfold (timeout : Z) (w : World) :
  serve timeout w =
    match process timeout w with
    | (Return _, w') => serve timeout w'
    | rw => rw
    end.
Proof.
  unfold serve at 1. unfold enough_fuel. simpl.
  destruct (process timeout w) as [[[]|e|] w1] eqn:Hp; [|done..].
  apply process_consumes in Hp.
  unfold serve, enough_fuel.
  destruct (forever_enough (S (length (buffer (reader w1)))) timeout w1)
    as (e & w' & Hf); [lia|].
  rewrite Hf.
  rewrite (forever_more_fuel _ (length (buffer (reader w))) _ _ _ Hf) by lia.
  done.
Qed.

Lemma awaiting_frame_connection (timeout : Z) (w0 w : World) :
  awaiting_frame timeout w0 w ->
  deadline w = deadline w0 /\ peername w = peername w0 /\
  writer_closed w = writer_closed w0.
Proof.
  induction 1 as [|w w' _ IH Hp]; [done|].
  pose proof (process_connection timeout w) as Hc. rewrite Hp in Hc.
  simpl in Hc. destruct IH as (? & ? & ?), Hc as (? & ? & ?).
  repeat split; congruence.
Qed.

Lemma serve_awaiting (timeout : Z) (w0 w : World) :
  awaiting_frame timeout w0 w ->
  serve timeout (entered w0) = serve timeout w.
Proof.
  induction 1 as [|w w' _ IH Hp]; [done|].
  rewrite IH, (serve_unfold timeout w), Hp. done.
Qed.

Lemma client_connected_cb_serve (timeout : Z) (w0 w' : World) (e : exn) :
  serve timeout (entered w0) = (Raise e, w') ->
  client_connected_cb timeout w0 = (Raise e, (teardown (peername w0) w').2).
Proof.
  intros Hs. unfold client_connected_cb, track_inprogress, try_finally.
  unfold mbind, Task_bind. simpl. unfold entered in Hs. simpl in Hs.
  rewrite Hs. reflexivity.
Qed.

(** The step to [Closed]: when a round raises, the callback ends with
    that exception, after the teardown. *)
Lemma connection_closes (timeout : Z) (w0 w w' : World) (e : exn) :
  awaiting_frame timeout w0 w ->
  process timeout w = (Raise e, w') ->
  client_connected_cb timeout w0 = (Raise e, (teardown (peername w0) w').2).
Proof.
  intros Ha Hp. apply client_connected_cb_serve.
  rewrite (serve_awaiting _ _ _ Ha), serve_unfold, Hp. done.
Qed.

End loop.

Lemma teardown_closed (peer : string) (w : World) :
  (teardown peer w).1 = Return tt /\
  writer_closed (teardown peer w).2 = true /\
  producer (teardown peer w).2 = producer w /\
  now (teardown peer w).2 = now w /\
  reader (teardown peer w).2 = reader w /\
  log (teardown peer w).2 = log w ++ [InfoClosing peer] /\
  iamalive (metrics (teardown peer w).2) = iamalive (metrics w) /\
  connected (metrics (teardown peer w).2) = connected (metrics w) - 1.
Proof. repeat split. Qed.

(** * The claims *)

(** ** The frame reader *)

(** C3. Frame-reading round trip: for every 160-byte header [H] and
    payloads [V] and [X] that the wire format can carry, a stream that
    holds [H], the packed length of [V], [V], the packed length of [X]
    and [X], followed by anything, is read as exactly [(H, V, X)], and
    exactly those bytes leave the buffer. Under the handler's deadline
    the result is the same when the last byte is in before [timeout]
    has passed. *)
Theorem read_roundtrip (w : World) (H V X payload : bytes)
    (chunk rest : list (Z * byte)) :
  length H = 160%nat ->
  frame_bytes H V X = Some payload ->
  buffer (reader w) = chunk ++ rest ->
  chunk.*2 = payload ->
  deadline w = None ->
  exists w',
    read w = (Return (H, V, X), w') /\
    buffer (reader w') = rest /\
    forall timeout,
      ready_at (now w) chunk < now w + timeout ->
      wait_for read timeout w = (Return (H, V, X), w').
Proof.
  intros HH Hf Hbuf Hchunk Hd.
  pose proof (read_frame w H V X payload chunk rest HH Hf Hbuf Hchunk Hd) as Hr.
  eexists. split; [exact Hr|]. split; [done|].
  intros timeout Hlt. rewrite <- Hr.
  apply wait_for_on_time; [apply Timed_read|done|].
  rewrite Hr. unfold on_time. simpl. by apply bool_decide_eq_true.
Qed.

Lemma read_roundtrip_witness :
  length (sample.bin_block 100) = 160%nat /\
  exists w',
    read sample.w_trailing =
      (Return (sample.bin_block 100, sample.voe_100, sample.txt), w') /\
    buffer (reader w') = arriving 5 [x01; x02] /\
    forall timeout,
      ready_at (now sample.w_trailing) (arriving 5 (sample.frame 100 sample.voe_100))
        < now sample.w_trailing + timeout ->
      wait_for read timeout sample.w_trailing =
        (Return (sample.bin_block 100, sample.voe_100, sample.txt), w').
Proof.
  split; [reflexivity|].
  apply (read_roundtrip _ (sample.bin_block 100) sample.voe_100 sample.txt
           (sample.frame 100 sample.voe_100)
           (arriving 5 (sample.frame 100 sample.voe_100))
           (arriving 5 [x01; x02])).
  - reflexivity.
  - vm_compute. reflexivity.
  - vm_compute. reflexivity.
  - vm_compute. reflexivity.
  - reflexivity.
Defined.

(** C9, as the claim states it, fails: whatever bound below the largest
    length the prefix can encode is proposed, [read] accepts a frame
    with a longer segment. *)
Lemma oversized_segment_accepted :
  ~ exists bound, bound < int4.max_value /\ rejects_oversized bound.
Proof.
  intros (bound & Hb & Hrej).
  set (V := replicate (Z.to_nat (Z.max 0 (bound + 1))) x00).
  set (H := replicate 160 x00).
  assert (HV : Z.of_nat (length V) = Z.max 0 (bound + 1)).
  { unfold V. rewrite length_replicate. lia. }
  destruct (proj2 (frame_bytes_is_Some H V [])) as [payload Hf].
  { rewrite HV. simpl. unfold int4.max_value in *. lia. }
  set (w := accepted "" {| buffer := arriving 0 payload; eof_at := None |}).
  destruct (Hrej w H V [] payload (arriving 0 payload) []) as (e & w' & Hr).
  - reflexivity.
  - exact Hf.
  - simpl. by rewrite app_nil_r.
  - apply arriving_bytes.
  - reflexivity.
  - left. lia.
  - rewrite (read_frame w H V [] payload (arriving 0 payload) []) in Hr;
      [done|reflexivity|exact Hf| |apply arriving_bytes|reflexivity].
    simpl. by rewrite app_nil_r.
Qed.

(** C9, amended. No bound applies: for every [bound], a complete frame
    whose VOEvent or text segment is longer than [bound] is read like
    any other, with segments of exactly the prefixed lengths. *)
Theorem read_any_length (bound : Z) (w : World) (H V X payload : bytes)
    (chunk rest : list (Z * byte)) :
  length H = 160%nat ->
  frame_bytes H V X = Some payload ->
  buffer (reader w) = chunk ++ rest ->
  chunk.*2 = payload ->
  deadline w = None ->
  bound < Z.of_nat (length V) \/ bound < Z.of_nat (length X) ->
  exists w',
    read w = (Return (H, V, X), w') /\
    log w' = log w ++ [DebugRead 160 (Z.of_nat (length V)) (Z.of_nat (length X))].
Proof.
  intros HH Hf Hbuf Hchunk Hd _.
  rewrite (read_frame w H V X payload chunk rest HH Hf Hbuf Hchunk Hd).
  by eexists.
Qed.

Lemma read_any_length_witness :
  2 < Z.of_nat (length sample.voe_100) /\
  exists w',
    read sample.w_notice =
      (Return (sample.bin_block 100, sample.voe_100, sample.txt), w') /\
    log w' = log sample.w_notice ++ [DebugRead 160 3 3].
Proof.
  split; [vm_compute; reflexivity|].
  apply (read_any_length 2 _ (sample.bin_block 100) sample.voe_100 sample.txt
           (sample.frame 100 sample.voe_100)
           (arriving 5 (sample.frame 100 sample.voe_100)) []).
  - reflexivity.
  - vm_compute. reflexivity.
  - vm_compute. reflexivity.
  - vm_compute. reflexivity.
  - reflexivity.
  - left. vm_compute. reflexivity.
Defined.

(** ** The connection handler *)

Section claims.
Context `{Imports}.

(** Reading a frame leaves the producer, the metrics and the
    connection as they were. *)
Lemma after_read (timeout : Z) (w : World) :
  producer (wait_for read timeout w).2 = producer w /\
  metrics (wait_for read timeout w).2 = metrics w /\
  writer_closed (wait_for read timeout w).2 = writer_closed w.
Proof.
  destruct (wait_for_Reading read timeout w Reading_read) as [[] _]. done.
Qed.

(** C1, amended. For every frame that was read, whose binary type
    code is not a heartbeat code, whose VOEvent segment parses and from
    whose document a type code is extracted, the round returns after
    exactly three [produce] calls, in the order binary, voevent, text:
    each carries the bytes of its segment, to the topic of its flavor
    and of the name of its type code (the binary code for binary and
    text, the code found in the XML for voevent). When the extraction
    raises instead, the round ends with that exception and the producer
    is as it was. *)
Theorem notice_published (timeout : Z) (w : World)
    (bin_data voe_data txt_data : bytes) (t : Z) (doc : Element) :
  (wait_for read timeout w).1 = Return (bin_data, voe_data, txt_data) ->
  int4.unpack_from bin_data = Some t ->
  t ∉ ignore_notice_types ->
  fromstring voe_data = Some doc ->
  match get_notice_type doc with
  | returns tv =>
      exists w',
        process timeout w = (Return tt, w') /\
        produced (producer w') =
          produced (producer w) ++
            [ (topic_for_notice_type_str (notice_type_int_to_str t) "binary", bin_data);
              (topic_for_notice_type_str (notice_type_int_to_str tv) "voevent", voe_data);
              (topic_for_notice_type_str (notice_type_int_to_str t) "text", txt_data) ]
  | throws e =>
      exists w', process timeout w = (Raise e, w') /\ producer w' = producer w
  end.
Proof.
  intros Hr Ht Hin Hx.
  destruct (after_read timeout w) as (Hp & _ & _).
  rewrite (process_frame _ _ _ Hr).
  destruct (get_notice_type doc) as [tv|e] eqn:Hg.
  - destruct (dispatch_publish (wait_for read timeout w).2
                bin_data voe_data txt_data t doc tv Ht Hin Hx Hg)
      as (w' & Hd & Hprod & _).
    exists w'. rewrite Hd, Hprod, Hp. done.
  - rewrite (dispatch_untyped _ _ _ _ _ _ _ Ht Hin Hx Hg).
    eexists. split; [reflexivity|]. exact Hp.
Qed.

(** C4. For every frame that was read and whose binary type code is
    a heartbeat code, the round returns with the producer untouched
    (no [produce], no [poll]), the heartbeat counter one higher, the
    labelled counter of the encodings untouched and no warning about
    differing types logged; the writer stays as it was and the loop
    goes on with the next frame. *)
Theorem heartbeat_dropped (timeout : Z) (w : World)
    (bin_data voe_data txt_data : bytes) (t : Z) :
  (wait_for read timeout w).1 = Return (bin_data, voe_data, txt_data) ->
  int4.unpack_from bin_data = Some t ->
  t ∈ ignore_notice_types ->
  exists w',
    process timeout w = (Return tt, w') /\
    producer w' = producer w /\
    iamalive (metrics w') = S (iamalive (metrics w)) /\
    received (metrics w') = received (metrics w) /\
    log w' = log (wait_for read timeout w).2 ++ [InfoReceived t] /\
    writer_closed w' = writer_closed w /\
    serve timeout w = serve timeout w' /\
    forall w0, awaiting_frame timeout w0 w -> awaiting_frame timeout w0 w'.
Proof.
  intros Hr Ht Hin.
  destruct (after_read timeout w) as (Hp & Hm & Hc).
  pose proof (process_frame _ _ _ Hr) as Hproc.
  rewrite (dispatch_heartbeat _ _ _ _ _ Ht Hin), Hm in Hproc.
  eexists. split; [exact Hproc|]. simpl.
  repeat split; try done.
  - by rewrite serve_unfold, Hproc.
  - intros w0 Ha. by eapply awaiting_next.
Qed.

(** C10. A heartbeat frame whose VOEvent segment is not XML does not
    end the connection: the segment is not parsed, the round returns
    without an exception, the writer stays as it was and the loop goes
    on with the next frame. *)
Theorem heartbeat_not_parsed (timeout : Z) (w : World)
    (bin_data voe_data txt_data : bytes) (t : Z) :
  (wait_for read timeout w).1 = Return (bin_data, voe_data, txt_data) ->
  int4.unpack_from bin_data = Some t ->
  t ∈ ignore_notice_types ->
  fromstring voe_data = None ->
  (process timeout w).1 = Return tt /\
  writer_closed (process timeout w).2 = writer_closed w /\
  serve timeout w = serve timeout (process timeout w).2 /\
  forall w0, awaiting_frame timeout w0 w ->
             awaiting_frame timeout w0 (process timeout w).2.
Proof.
  intros Hr Ht Hin _.
  destruct (after_read timeout w) as (Hp & Hm & Hc).
  pose proof (process_frame _ _ _ Hr) as Hproc.
  rewrite (dispatch_heartbeat _ _ _ _ _ Ht Hin) in Hproc.
  rewrite Hproc. simpl. repeat split; try done.
  - by rewrite serve_unfold, Hproc.
  - intros w0 Ha. by eapply awaiting_next.
Qed.

(** C7. For every frame that was read, that is not a heartbeat and
    whose XML carries a type code other than the binary one, the round
    does not fail: it logs the warning, publishes the binary and text
    segments to the topics of the binary code's name and the voevent
    segment to the topic of the XML code's name. *)
Theorem type_mismatch_tolerated (timeout : Z) (w : World)
    (bin_data voe_data txt_data : bytes) (t : Z) (doc : Element) (tv : Z) :
  (wait_for read timeout w).1 = Return (bin_data, voe_data, txt_data) ->
  int4.unpack_from bin_data = Some t ->
  t ∉ ignore_notice_types ->
  fromstring voe_data = Some doc ->
  get_notice_type doc = returns tv ->
  t ≠ tv ->
  exists w',
    process timeout w = (Return tt, w') /\
    log w' = log (wait_for read timeout w).2 ++
               [InfoReceived t; WarningDiffer t tv] /\
    produced (producer w') =
      produced (producer w) ++
        [ (topic_for_notice_type_str (notice_type_int_to_str t) "binary", bin_data);
          (topic_for_notice_type_str (notice_type_int_to_str tv) "voevent", voe_data);
          (topic_for_notice_type_str (notice_type_int_to_str t) "text", txt_data) ].
Proof.
  intros Hr Ht Hin Hx Hg Hne.
  destruct (after_read timeout w) as (Hp & _ & _).
  destruct (dispatch_publish (wait_for read timeout w).2
              bin_data voe_data txt_data t doc tv Ht Hin Hx Hg)
    as (w' & Hd & Hprod & _ & _ & _ & _ & Hlog).
  exists w'. rewrite (process_frame _ _ _ Hr), Hd, Hprod, Hp, Hlog.
  by rewrite bool_decide_true.
Qed.

(** C6. For every frame that was read, that is not a heartbeat and
    whose VOEvent segment does not parse, the round raises
    [XMLSyntaxError] with nothing produced; the loop is left at once
    with that exception, and the callback of the connection ends with
    it after closing the writer, still with nothing produced for the
    notice. *)
Theorem malformed_voevent_closes (timeout : Z) (w0 w : World)
    (bin_data voe_data txt_data : bytes) (t : Z) :
  awaiting_frame timeout w0 w ->
  (wait_for read timeout w).1 = Return (bin_data, voe_data, txt_data) ->
  int4.unpack_from bin_data = Some t ->
  t ∉ ignore_notice_types ->
  fromstring voe_data = None ->
  exists w' w'',
    process timeout w = (Raise XMLSyntaxError, w') /\
    producer w' = producer w /\
    serve timeout w = (Raise XMLSyntaxError, w') /\
    client_connected_cb timeout w0 = (Raise XMLSyntaxError, w'') /\
    writer_closed w'' = true /\
    producer w'' = producer w.
Proof.
  intros Ha Hr Ht Hin Hx.
  destruct (after_read timeout w) as (Hp & _ & _).
  pose proof (process_frame _ _ _ Hr) as Hproc.
  rewrite (dispatch_malformed _ _ _ _ _ Ht Hin Hx) in Hproc.
  eexists. eexists. split; [exact Hproc|].
  split; [exact Hp|].
  split; [by rewrite serve_unfold, Hproc|].
  split; [exact (connection_closes _ _ _ _ _ Ha Hproc)|].
  split; [reflexivity|exact Hp].
Qed.

(** C5, amended. The counter behind [metrics.iamalive] counts the
    frames read: a round adds exactly one to it when a frame was read,
    whatever its type code, and leaves it alone when the read
    failed. *)
Theorem iamalive_counts_frames (timeout : Z) (w : World) :
  iamalive (metrics (process timeout w).2) =
    match (wait_for read timeout w).1 with
    | Return _ => S (iamalive (metrics w))
    | _ => iamalive (metrics w)
    end.
Proof.
  destruct (after_read timeout w) as (_ & Hm & _).
  pose proof (process_frame timeout w) as Hframe.
  pose proof (process_read_fails timeout w) as Hfails.
  unfold process, mbind, Task_bind in *.
  destruct (wait_for read timeout w) as [[[[b v] x]|e|] w1]; simpl in *;
    [|by rewrite Hm..].
  rewrite (Hframe _ eq_refl), <- Hm. clear Hframe Hfails.
  destruct (int4.unpack_from b) as [t|] eqn:Ht.
  - destruct (decide (t ∈ ignore_notice_types)) as [Hin|Hin].
    + by rewrite (dispatch_heartbeat _ _ _ _ _ Ht Hin).
    + destruct (fromstring v) as [doc|] eqn:Hx.
      * destruct (get_notice_type doc) as [tv|e'] eqn:Hg.
        -- destruct (dispatch_publish w1 b v x t doc tv Ht Hin Hx Hg)
             as (w' & -> & _ & _ & Hi & _). done.
        -- by rewrite (dispatch_untyped _ _ _ _ _ _ _ Ht Hin Hx Hg).
      * by rewrite (dispatch_malformed _ _ _ _ _ Ht Hin Hx).
  - unfold dispatch, mbind, Task_bind, iamalive_inc, from_struct. simpl.
    by rewrite Ht.
Qed.

End claims.

(** ** The claims on sample connections *)

Lemma notice_published_witness :
  ((wait_for read 90 sample.w_notice).1
     = Return (sample.bin_block 100, sample.voe_100, sample.txt) /\
   int4.unpack_from (sample.bin_block 100) = Some 100 /\
   (100 ∉ (@ignore_notice_types sample.imports)) /\
   sample.parse sample.voe_100 = Some 100) /\
  exists w',
    @process sample.imports 90 sample.w_notice = (Return tt, w') /\
    produced (producer w') =
      produced (producer sample.w_notice) ++
        [ ("gcn.classic.binary.TYPE_100"%string, sample.bin_block 100);
          ("gcn.classic.voevent.TYPE_100"%string, sample.voe_100);
          ("gcn.classic.text.TYPE_100"%string, sample.txt) ].
Proof.
  assert (Hin : 100 ∉ (@ignore_notice_types sample.imports)).
  { apply (bool_decide_unpack _). vm_compute. exact I. }
  split.
  - split; [vm_compute; reflexivity|].
    split; [vm_compute; reflexivity|].
    split; [exact Hin|reflexivity].
  - apply (@notice_published sample.imports 90 sample.w_notice
             (sample.bin_block 100) sample.voe_100 sample.txt 100 100).
    + vm_compute. reflexivity.
    + vm_compute. reflexivity.
    + exact Hin.
    + reflexivity.
Defined.

Lemma heartbeat_dropped_witness :
  ((wait_for read 90 sample.w_heartbeat).1
     = Return (sample.bin_block 3, sample.not_xml, sample.txt) /\
   int4.unpack_from (sample.bin_block 3) = Some 3 /\
   3 ∈ (@ignore_notice_types sample.imports)) /\
  exists w',
    @process sample.imports 90 sample.w_heartbeat = (Return tt, w') /\
    producer w' = producer sample.w_heartbeat /\
    iamalive (metrics w') = S (iamalive (metrics sample.w_heartbeat)) /\
    received (metrics w') = received (metrics sample.w_heartbeat) /\
    log w' = log (wait_for read 90 sample.w_heartbeat).2 ++ [InfoReceived 3] /\
    writer_closed w' = writer_closed sample.w_heartbeat /\
    @serve sample.imports 90 sample.w_heartbeat = @serve sample.imports 90 w' /\
    forall w0, @awaiting_frame sample.imports 90 w0 sample.w_heartbeat ->
               @awaiting_frame sample.imports 90 w0 w'.
Proof.
  assert (Hin : 3 ∈ (@ignore_notice_types sample.imports)).
  { apply (bool_decide_unpack _). vm_compute. exact I. }
  split.
  - split; [vm_compute; reflexivity|].
    split; [vm_compute; reflexivity|exact Hin].
  - apply (@heartbeat_dropped sample.imports 90 sample.w_heartbeat
             (sample.bin_block 3) sample.not_xml sample.txt 3).
    + vm_compute. reflexivity.
    + vm_compute. reflexivity.
    + exact Hin.
Defined.

Lemma heartbeat_not_parsed_witness :
  ((wait_for read 90 sample.w_heartbeat).1
     = Return (sample.bin_block 3, sample.not_xml, sample.txt) /\
   int4.unpack_from (sample.bin_block 3) = Some 3 /\
   (3 ∈ (@ignore_notice_types sample.imports)) /\
   sample.parse sample.not_xml = None) /\
  (@process sample.imports 90 sample.w_heartbeat).1 = Return tt /\
  writer_closed (@process sample.imports 90 sample.w_heartbeat).2
    = writer_closed sample.w_heartbeat /\
  @serve sample.imports 90 sample.w_heartbeat
    = @serve sample.imports 90 (@process sample.imports 90 sample.w_heartbeat).2 /\
  forall w0, @awaiting_frame sample.imports 90 w0 sample.w_heartbeat ->
             @awaiting_frame sample.imports 90 w0
               (@process sample.imports 90 sample.w_heartbeat).2.
Proof.
  assert (Hin : 3 ∈ (@ignore_notice_types sample.imports)).
  { apply (bool_decide_unpack _). vm_compute. exact I. }
  split.
  - split; [vm_compute; reflexivity|].
    split; [vm_compute; reflexivity|].
    split; [exact Hin|reflexivity].
  - apply (@heartbeat_not_parsed sample.imports 90 sample.w_heartbeat
             (sample.bin_block 3) sample.not_xml sample.txt 3).
    + vm_compute. reflexivity.
    + vm_compute. reflexivity.
    + exact Hin.
    + reflexivity.
Defined.

Lemma type_mismatch_tolerated_witness :
  ((wait_for read 90 sample.w_mismatch).1
     = Return (sample.bin_block 100, sample.voe_101, sample.txt) /\
   int4.unpack_from (sample.bin_block 100) = Some 100 /\
   (100 ∉ (@ignore_notice_types sample.imports)) /\
   sample.parse sample.voe_101 = Some 101 /\
   @get_notice_type sample.imports 101 = returns 101 /\
   100 ≠ 101) /\
  exists w',
    @process sample.imports 90 sample.w_mismatch = (Return tt, w') /\
    log w' = log (wait_for read 90 sample.w_mismatch).2 ++
               [InfoReceived 100; WarningDiffer 100 101] /\
    produced (producer w') =
      produced (producer sample.w_mismatch) ++
        [ ("gcn.classic.binary.TYPE_100"%string, sample.bin_block 100);
          ("gcn.classic.voevent.TYPE_101"%string, sample.voe_101);
          ("gcn.classic.text.TYPE_100"%string, sample.txt) ].
Proof.
  assert (Hin : 100 ∉ (@ignore_notice_types sample.imports)).
  { apply (bool_decide_unpack _). vm_compute. exact I. }
  split.
  - split; [vm_compute; reflexivity|].
    split; [vm_compute; reflexivity|].
    split; [exact Hin|]. split; [reflexivity|].
    split; [reflexivity|lia].
  - apply (@type_mismatch_tolerated sample.imports 90 sample.w_mismatch
             (sample.bin_block 100) sample.voe_101 sample.txt 100 101 101).
    + vm_compute. reflexivity.
    + vm_compute. reflexivity.
    + exact Hin.
    + reflexivity.
    + reflexivity.
    + lia.
Defined.

Lemma malformed_voevent_closes_witness :
  (@awaiting_frame sample.imports 90 sample.w_malformed (entered sample.w_malformed) /\
   (wait_for read 90 (entered sample.w_malformed)).1
     = Return (sample.bin_block 100, sample.not_xml, sample.txt) /\
   int4.unpack_from (sample.bin_block 100) = Some 100 /\
   (100 ∉ (@ignore_notice_types sample.imports)) /\
   sample.parse sample.not_xml = None) /\
  exists w' w'',
    @process sample.imports 90 (entered sample.w_malformed) = (Raise XMLSyntaxError, w') /\
    producer w' = producer (entered sample.w_malformed) /\
    @serve sample.imports 90 (entered sample.w_malformed) = (Raise XMLSyntaxError, w') /\
    @client_connected_cb sample.imports 90 sample.w_malformed
      = (Raise XMLSyntaxError, w'') /\
    writer_closed w'' = true /\
    producer w'' = producer (entered sample.w_malformed).
Proof.
  assert (Hin : 100 ∉ (@ignore_notice_types sample.imports)).
  { apply (bool_decide_unpack _). vm_compute. exact I. }
  split.
  - split; [apply awaiting_first|].
    split; [vm_compute; reflexivity|].
    split; [vm_compute; reflexivity|].
    split; [exact Hin|reflexivity].
  - apply (@malformed_voevent_closes sample.imports 90 sample.w_malformed
             (entered sample.w_malformed)
             (sample.bin_block 100) sample.not_xml sample.txt 100).
    + apply awaiting_first.
    + vm_compute. reflexivity.
    + vm_compute. reflexivity.
    + exact Hin.
    + reflexivity.
Defined.

(** C1, as the claim states it, fails: a notice of type 100, which is
    not a heartbeat code, is read, and its VOEvent payload parses, but
    the document carries no type code. The extraction raises, the round
    ends with that exception, and nothing has been published. *)
Lemma parsed_notice_not_published :
  (100 ∉ (@ignore_notice_types sample.imports)) /\
  (wait_for read 90 sample.w_untyped).1
    = Return (sample.bin_block 100, sample.voe_untyped, sample.txt) /\
  int4.unpack_from (sample.bin_block 100) = Some 100 /\
  sample.parse sample.voe_untyped = Some 47 /\
  (@process sample.imports 90 sample.w_untyped).1 = Raise AttributeError /\
  produced (producer (@process sample.imports 90 sample.w_untyped).2) = [].
Proof.
  split.
  { apply (bool_decide_unpack _). vm_compute. exact I. }
  repeat split; vm_compute; reflexivity.
Qed.

(** C5, as the claim states it, fails: a notice of type 100, which is
    not a heartbeat code, is read and published, and the heartbeat
    counter has gone from 0 to 1. *)
Lemma iamalive_counts_a_notice :
  (100 ∉ (@ignore_notice_types sample.imports)) /\
  (wait_for read 90 sample.w_notice).1
    = Return (sample.bin_block 100, sample.voe_100, sample.txt) /\
  int4.unpack_from (sample.bin_block 100) = Some 100 /\
  (@process sample.imports 90 sample.w_notice).1 = Return tt /\
  iamalive (metrics sample.w_notice) = 0%nat /\
  iamalive (metrics (@process sample.imports 90 sample.w_notice).2) = 1%nat.
Proof.
  split.
  { apply (bool_decide_unpack _). vm_compute. exact I. }
  repeat split; vm_compute; reflexivity.
Qed.

(** ** The read deadline *)

Section deadline.
Context `{Imports}.

(** C8. The deadline, 90 time units unless the caller says otherwise,
    is armed by every round when it starts to read, at [timeout] from
    the clock of that moment, however long the connection has been
    open, and it covers the read of the whole frame. When all three
    segments are in before it, the frame is read as if there were no
    deadline. Otherwise, and also when the peer stays silent for
    ever, the read is cancelled at the deadline: the round raises
    [TimeoutError], the loop is left at once, and the callback ends
    with that exception after closing the writer, with nothing
    produced in between. *)
Theorem read_deadline_per_frame (timeout : Z) (w0 w : World) :
  deadline w0 = None ->
  awaiting_frame timeout w0 w ->
  default_timeout = 90 /\
  client_connected = client_connected_cb 90 /\
  if on_time (now w + timeout) (read w)
  then wait_for read timeout w = read w
  else exists w' w'',
    process timeout w = (Raise TimeoutError, w') /\
    now w' = Z.max (now w) (now w + timeout) /\
    serve timeout w = (Raise TimeoutError, w') /\
    client_connected_cb timeout w0 = (Raise TimeoutError, w'') /\
    writer_closed w'' = true /\
    now w'' = now w' /\
    producer w'' = producer w.
Proof.
  intros Hd0 Ha. split; [reflexivity|]. split; [reflexivity|].
  destruct (awaiting_frame_connection _ _ _ Ha) as (Hd & _).
  rewrite Hd0 in Hd.
  pose proof (wait_for_read timeout w Hd) as Hw.
  destruct (on_time _ _); [exact Hw|].
  destruct Hw as (w' & Hw & Hn).
  destruct (after_read timeout w) as (Hp & _ & _).
  pose proof (process_read_fails timeout w TimeoutError) as Hproc.
  rewrite Hw in Hproc, Hp. specialize (Hproc eq_refl). simpl in *.
  exists w', (teardown (peername w0) w').2.
  split; [exact Hproc|]. split; [exact Hn|].
  split; [by rewrite serve_unfold, Hproc|].
  split; [exact (connection_closes _ _ _ _ _ Ha Hproc)|].
  split; [reflexivity|]. split; [reflexivity|exact Hp].
Qed.

End deadline.

Lemma read_deadline_per_frame_witness :
  (deadline sample.w_late = None /\
   @awaiting_frame sample.imports 90 sample.w_late (entered sample.w_late)) /\
  default_timeout = 90 /\
  @client_connected sample.imports = @client_connected_cb sample.imports 90 /\
  if on_time (now (entered sample.w_late) + 90) (read (entered sample.w_late))
  then wait_for read 90 (entered sample.w_late) = read (entered sample.w_late)
  else exists w' w'',
    @process sample.imports 90 (entered sample.w_late) = (Raise TimeoutError, w') /\
    now w' = Z.max (now (entered sample.w_late)) (now (entered sample.w_late) + 90) /\
    @serve sample.imports 90 (entered sample.w_late) = (Raise TimeoutError, w') /\
    @client_connected_cb sample.imports 90 sample.w_late = (Raise TimeoutError, w'') /\
    writer_closed w'' = true /\
    now w'' = now w' /\
    producer w'' = producer (entered sample.w_late).
Proof.
  split.
  - split; [reflexivity|apply awaiting_first].
  - apply (@read_deadline_per_frame sample.imports 90 sample.w_late
             (entered sample.w_late)).
    + reflexivity.
    + apply awaiting_first.
Defined.

(** The notice of [w_late] arrives at 95, after the deadline of 90: the
    connection is closed at 90 and nothing is published. *)
Example late_notice_times_out :
  on_time (now (entered sample.w_late) + 90) (read (entered sample.w_late)) = false /\
  (@client_connected sample.imports sample.w_late).1 = Raise TimeoutError /\
  now (@client_connected sample.imports sample.w_late).2 = 90 /\
  writer_closed (@client_connected sample.imports sample.w_late).2 = true /\
  produced (producer (@client_connected sample.imports sample.w_late).2) = [].
Proof. repeat split; vm_compute; reflexivity. Qed.

(** The deadline starts afresh with each frame: two notices, the first
    in at 60 and the second at 130, are both published under a timeout
    of 90, and the peer's silence afterwards ends the connection at
    130 + 90. *)
Example deadline_starts_afresh :
  let w := accepted "peer"
             {| buffer := arriving 60 (sample.frame 100 sample.voe_100) ++
                          arriving 130 (sample.frame 100 sample.voe_101);
                eof_at := None |} in
  (@client_connected sample.imports w).1 = Raise TimeoutError /\
  now (@client_connected sample.imports w).2 = 220 /\
  length (produced (producer (@client_connected sample.imports w).2)) = 6%nat.
Proof. repeat split; vm_compute; reflexivity. Qed.

(** One deadline for the three segments: the binary block is in at 50,
    the VOEvent segment at 80 and the text segment at 95. No single
    wait lasts 90, yet the frame is not complete at 90 and the read is
    cancelled then. *)
Example deadline_spans_segments :
  let w := accepted "peer"
             {| buffer := arriving 50 (sample.bin_block 100) ++
                          arriving 80 (default [] (int4.pack 3) ++ sample.voe_100) ++
                          arriving 95 (default [] (int4.pack 3) ++ sample.txt);
                eof_at := None |} in
  (@client_connected sample.imports w).1 = Raise TimeoutError /\
  now (@client_connected sample.imports w).2 = 90 /\
  produced (producer (@client_connected sample.imports w).2) = [].
Proof. repeat split; vm_compute; reflexivity. Qed.

(** ** A stream that ends inside a frame *)

(** One segment of a frame, read from a stream that ends somewhere in
    what is left of the frame: either the segment is complete and the
    stream ends in the rest, or the read is short. *)
Lemma readexactly_segment (w : World) (seg more p : bytes) (te : Z) :
  (buffer (reader w)).*2 = p ->
  p `prefix_of` seg ++ more ->
  p ≠ seg ++ more ->
  eof_at (reader w) = Some te ->
  deadline w = None ->
  (exists w1 p1,
     readexactly (Z.of_nat (length seg)) w = (Return seg, w1) /\
     p = seg ++ p1 /\
     (buffer (reader w1)).*2 = p1 /\ p1 `prefix_of` more /\ p1 ≠ more /\
     eof_at (reader w1) = Some te /\ deadline w1 = None)
  \/
  (exists w1,
     readexactly (Z.of_nat (length seg)) w
       = (Raise (IncompleteReadError p (Z.of_nat (length seg))), w1) /\
     (length p < length seg)%nat /\
     buffer (reader w1) = []).
Proof.
  intros Hbuf [k Hk] Hne He Hd.
  apply app_eq_inv in Hk as [(j & Hj & _)|(j & Hj & Hmore)].
  - destruct j as [|b j].
    + rewrite app_nil_r in Hj. subst seg. subst p. left.
      eexists _, []. split.
      { apply (readexactly_chunk _ _ (buffer (reader w)) []);
          [by rewrite app_nil_r| by rewrite length_fmap | done]. }
      rewrite app_nil_r. simpl.
      repeat split; try done.
      * apply prefix_nil.
      * intros <-. by rewrite app_nil_r in Hne.
    + right. eexists. split.
      { rewrite (readexactly_short _ te); [by rewrite Hbuf| |done..].
        rewrite <- (length_fmap snd), Hbuf, Hj, length_app. simpl. lia. }
      split; [|done]. rewrite Hj, length_app. simpl. lia.
  - left. rewrite Hj in Hbuf.
    apply fmap_app_inv in Hbuf as (c & r & Hc & Hr & Hcr).
    eexists _, j. split.
    { rewrite (readexactly_chunk _ _ c r); [by rewrite <- Hc|done| |done].
      by rewrite Hc, length_fmap. }
    simpl. repeat split; try done.
    + by exists k.
    + intros <-. by rewrite Hj in Hne.
Qed.

(** Whatever proper prefix of a frame the stream ends at, the empty one
    included, [read] raises [IncompleteReadError]. *)
Lemma read_prefix (w : World) (bin_data voe_data txt_data payload p : bytes) (te : Z) :
  length bin_data = 160%nat ->
  frame_bytes bin_data voe_data txt_data = Some payload ->
  p `prefix_of` payload ->
  p ≠ payload ->
  (buffer (reader w)).*2 = p ->
  eof_at (reader w) = Some te ->
  deadline w = None ->
  exists partial expected w',
    read w = (Raise (IncompleteReadError partial expected), w') /\
    buffer (reader w') = [] /\
    (p = [] -> partial = [] /\ expected = 160).
Proof.
  intros Hbin Hf Hpre Hne Hbuf He Hd.
  apply frame_bytes_Some in Hf as (l1 & l2 & Hl1 & Hl2 & ->).
  pose proof (pack_length _ _ Hl1) as Hlen1.
  pose proof (pack_length _ _ Hl2) as Hlen2.
  unfold read.
  destruct (readexactly_segment w bin_data _ p te Hbuf Hpre Hne He Hd)
    as [(w1 & p1 & Hr1 & Hp1 & Hb1 & Hpre1 & Hne1 & He1 & Hd1)|(w1 & Hr1 & _ & Hb1)];
    rewrite Hbin in Hr1; cycle 1.
  { eexists _, _, w1. split; [apply bind_Raise; exact Hr1|]. split; [done|].
    intros Hnil. by split. }
  assert (Hp : p = [] -> False).
  { intros ->. symmetry in Hp1. apply app_eq_nil in Hp1 as [-> _]. done. }
  rewrite (bind_Return _ _ _ _ _ Hr1).
  destruct (readexactly_segment w1 l1 _ p1 te Hb1 Hpre1 Hne1 He1 Hd1)
    as [(w2 & p2 & Hr2 & _ & Hb2 & Hpre2 & Hne2 & He2 & Hd2)|(w2 & Hr2 & _ & Hb2)];
    rewrite Hlen1 in Hr2; cycle 1.
  { eexists _, _, w2. split; [apply bind_Raise, bind_Raise; exact Hr2|].
    split; [done|]. intros Hnil. by destruct Hp. }
  erewrite (bind_Return (readexactly _ ≫= _)); cycle 1.
  { rewrite (bind_Return _ _ _ _ _ Hr2). simpl.
    rewrite (unpack_pack _ _ Hl1). reflexivity. }
  destruct (readexactly_segment w2 voe_data _ p2 te Hb2 Hpre2 Hne2 He2 Hd2)
    as [(w3 & p3 & Hr3 & _ & Hb3 & Hpre3 & Hne3 & He3 & Hd3)|(w3 & Hr3 & _ & Hb3)];
    cycle 1.
  { eexists _, _, w3. split; [apply bind_Raise; exact Hr3|]. split; [done|].
    intros Hnil. by destruct Hp. }
  rewrite (bind_Return _ _ _ _ _ Hr3).
  destruct (readexactly_segment w3 l2 _ p3 te Hb3 Hpre3 Hne3 He3 Hd3)
    as [(w4 & p4 & Hr4 & _ & Hb4 & Hpre4 & Hne4 & He4 & Hd4)|(w4 & Hr4 & _ & Hb4)];
    rewrite Hlen2 in Hr4; cycle 1.
  { eexists _, _, w4. split; [apply bind_Raise, bind_Raise; exact Hr4|].
    split; [done|]. intros Hnil. by destruct Hp. }
  erewrite (bind_Return (readexactly _ ≫= _)); cycle 1.
  { rewrite (bind_Return _ _ _ _ _ Hr4). simpl.
    rewrite (unpack_pack _ _ Hl2). reflexivity. }
  rewrite <- (app_nil_r txt_data) in Hpre4, Hne4.
  destruct (readexactly_segment w4 txt_data [] p4 te Hb4 Hpre4 Hne4 He4 Hd4)
    as [(w5 & p5 & _ & _ & _ & Hpre5 & Hne5 & _)|(w5 & Hr5 & _ & Hb5)].
  { apply prefix_nil_inv in Hpre5. done. }
  eexists _, _, w5. split; [apply bind_Raise; exact Hr5|]. split; [done|].
  intros Hnil. by destruct Hp.
Qed.

(** C2, as the claim states it, fails. One peer closes without sending
    a byte; another closes inside a frame, after the binary block and
    the length of a 160-byte VOEvent payload. [read] raises the very
    same exception for both, and the callback ends in the very same
    outcome and world: nothing tells the empty prefix from the
    non-empty one. *)
Lemma close_kinds_not_told_apart :
  (buffer (reader sample.w_idle)).*2 = [] /\
  (buffer (reader sample.w_cut)).*2 = take 164 (sample.frame 100 sample.voe_160) /\
  frame_bytes (sample.bin_block 100) sample.voe_160 sample.txt
    = Some (sample.frame 100 sample.voe_160) /\
  (read sample.w_idle).1 = Raise (IncompleteReadError [] 160) /\
  (read sample.w_cut).1 = Raise (IncompleteReadError [] 160) /\
  (@client_connected sample.imports sample.w_idle).1
    = Raise (IncompleteReadError [] 160) /\
  @client_connected sample.imports sample.w_idle
    = @client_connected sample.imports sample.w_cut.
Proof. repeat split; vm_compute; reflexivity. Qed.

Section closing.
Context `{Imports}.

(** C2, amended. For every prefix of a frame short of the whole
    frame, the empty prefix included, reading from a stream that ends
    at that prefix raises [IncompleteReadError], which for the empty
    prefix carries no bytes and the size of the binary block. When
    the end of the stream is seen before the deadline, the round
    raises that exception and the callback ends with it after closing
    the writer: the close between notices and the close inside a
    notice end the connection in the same way. *)
Theorem close_raises_incomplete_read (timeout : Z) (w0 w : World)
    (bin_data voe_data txt_data payload p : bytes) (te : Z) :
  deadline w0 = None ->
  awaiting_frame timeout w0 w ->
  length bin_data = 160%nat ->
  frame_bytes bin_data voe_data txt_data = Some payload ->
  p `prefix_of` payload ->
  p ≠ payload ->
  (buffer (reader w)).*2 = p ->
  eof_at (reader w) = Some te ->
  on_time (now w + timeout) (read w) = true ->
  exists partial expected w' w'',
    read w = (Raise (IncompleteReadError partial expected), w') /\
    (p = [] -> partial = [] /\ expected = 160) /\
    process timeout w = (Raise (IncompleteReadError partial expected), w') /\
    client_connected_cb timeout w0
      = (Raise (IncompleteReadError partial expected), w'') /\
    writer_closed w'' = true.
Proof.
  intros Hd0 Ha Hbin Hf Hpre Hne Hbuf He Hon.
  destruct (awaiting_frame_connection _ _ _ Ha) as (Hd & _).
  rewrite Hd0 in Hd.
  destruct (read_prefix w _ _ _ _ _ te Hbin Hf Hpre Hne Hbuf He Hd)
    as (partial & expected & w' & Hr & _ & Hnil).
  pose proof (wait_for_on_time read timeout w Timed_read Hd Hon) as Hw.
  pose proof (process_read_fails timeout w (IncompleteReadError partial expected))
    as Hproc.
  rewrite Hw, Hr in Hproc. specialize (Hproc eq_refl). simpl in Hproc.
  exists partial, expected, w', (teardown (peername w0) w').2.
  split; [exact Hr|]. split; [exact Hnil|]. split; [exact Hproc|].
  split; [exact (connection_closes _ _ _ _ _ Ha Hproc)|reflexivity].
Qed.

End closing.

Lemma close_raises_incomplete_read_witness :
  (deadline sample.w_cut = None /\
   @awaiting_frame sample.imports 90 sample.w_cut (entered sample.w_cut) /\
   length (sample.bin_block 100) = 160%nat /\
   frame_bytes (sample.bin_block 100) sample.voe_160 sample.txt
     = Some (sample.frame 100 sample.voe_160) /\
   take 164 (sample.frame 100 sample.voe_160) `prefix_of` sample.frame 100 sample.voe_160 /\
   take 164 (sample.frame 100 sample.voe_160) ≠ sample.frame 100 sample.voe_160 /\
   (buffer (reader (entered sample.w_cut))).*2 = take 164 (sample.frame 100 sample.voe_160) /\
   eof_at (reader (entered sample.w_cut)) = Some 5 /\
   on_time (now (entered sample.w_cut) + 90) (read (entered sample.w_cut)) = true) /\
  exists partial expected w' w'',
    read (entered sample.w_cut) = (Raise (IncompleteReadError partial expected), w') /\
    (take 164 (sample.frame 100 sample.voe_160) = [] -> partial = [] /\ expected = 160) /\
    @process sample.imports 90 (entered sample.w_cut)
      = (Raise (IncompleteReadError partial expected), w') /\
    @client_connected_cb sample.imports 90 sample.w_cut
      = (Raise (IncompleteReadError partial expected), w'') /\
    writer_closed w'' = true.
Proof.
  assert (Hne : take 164 (sample.frame 100 sample.voe_160)
                ≠ sample.frame 100 sample.voe_160).
  { intros Heq. apply (f_equal length) in Heq. vm_compute in Heq. discriminate. }
  split.
  - split; [reflexivity|]. split; [apply awaiting_first|].
    split; [reflexivity|]. split; [vm_compute; reflexivity|].
    split; [apply prefix_take|]. split; [exact Hne|].
    split; [vm_compute; reflexivity|]. split; [reflexivity|].
    vm_compute; reflexivity.
  - apply (@close_raises_incomplete_read sample.imports 90 sample.w_cut
             (entered sample.w_cut) (sample.bin_block 100) sample.voe_160 sample.txt
             (sample.frame 100 sample.voe_160)
             (take 164 (sample.frame 100 sample.voe_160)) 5).
    + reflexivity.
    + apply awaiting_first.
    + reflexivity.
    + vm_compute. reflexivity.
    + apply prefix_take.
    + exact Hne.
    + vm_compute. reflexivity.
    + reflexivity.
    + vm_compute. reflexivity.
Defined.

(** * Further properties of the handler *)

(** ** The length field, both ways *)

Lemma byte_of_to_Z (b : byte) : byte_of_Z (byte_to_Z b) = b.
Proof.
  unfold byte_of_Z, byte_to_Z. rewrite N2Z.id, Byte.of_to_N. done.
Qed.

Lemma pack_unpack (buf : bytes) (z : Z) :
  int4.unpack buf = Some z -> int4.pack z = Some buf.
Proof.
  destruct buf as [|b0 [|b1 [|b2 [|b3 [|]]]]]; try done.
  intros [= <-].
  pose proof (unsigned_range b0 b1 b2 b3) as Hu.
  pose proof (to_signed_range _ Hu) as Hr.
  unfold int4.pack. rewrite bool_decide_true by done.
  assert (Hmod : int4.to_signed (int4.unsigned b0 b1 b2 b3) mod 2 ^ 32
                 = int4.unsigned b0 b1 b2 b3).
  { rewrite to_signed_spec by done.
    case_bool_decide; Z.div_mod_to_equations; lia. }
  rewrite Hmod, unsigned_sum, !land_255, !Z.shiftr_div_pow2 by lia.
  pose proof (byte_to_Z_range b0). pose proof (byte_to_Z_range b1).
  pose proof (byte_to_Z_range b2). pose proof (byte_to_Z_range b3).
  do 4 f_equal; [| | |f_equal];
    (etransitivity; [|apply byte_of_to_Z]); f_equal;
    Z.div_mod_to_equations; lia.
Qed.

(** X1. [int4] is a bijection between the buffers of four bytes and the
    signed 32-bit integers: a buffer unpacks to [z] exactly when [z]
    packs to that buffer, and only integers in range are involved. *)
Theorem int4_pack_unpack (buf : bytes) (z : Z) :
  int4.unpack buf = Some z <-> int4.pack z = Some buf.
Proof.
  split; [apply pack_unpack|apply unpack_pack].
Qed.

(** X2. The notice type is read off the first four bytes of the binary
    block: a block that begins with the packed code [z] gives [z],
    whatever follows, and a block shorter than four bytes gives
    [struct.error]. *)
Theorem unpack_from_prefix (z : Z) (code rest : bytes) :
  int4.pack z = Some code ->
  int4.unpack_from (code ++ rest) = Some z /\
  forall short, (length short < 4)%nat -> int4.unpack_from short = None.
Proof.
  intros Hp. split.
  - pose proof (unpack_pack _ _ Hp) as Hu.
    destruct code as [|b0 [|b1 [|b2 [|b3 [|]]]]]; try done.
  - intros short Hlen.
    destruct short as [|b0 [|b1 [|b2 [|b3 ?]]]]; simpl in *; try done; lia.
Qed.

Lemma unpack_from_prefix_witness :
  int4.pack 100 = Some [x00; x00; x00; x64] /\
  int4.unpack_from ([x00; x00; x00; x64] ++ [x01; x02]) = Some 100 /\
  forall short, (length short < 4)%nat -> int4.unpack_from short = None.
Proof.
  split; [vm_compute; reflexivity|].
  apply (unpack_from_prefix 100 [x00; x00; x00; x64] [x01; x02]).
  vm_compute. reflexivity.
Defined.

(** ** What [read] returns was on the wire *)

Lemma readexactly_Return_bytes (n : Z) (w w' : World) (data : bytes) :
  readexactly n w = (Return data, w') ->
  0 <= n /\
  exists chunk,
    buffer (reader w) = chunk ++ buffer (reader w') /\
    chunk.*2 = data /\
    Z.of_nat (length chunk) = n /\
    eof_at (reader w') = eof_at (reader w).
Proof.
  unfold readexactly, await_until, await_forever, cancel, take_exactly,
    incomplete_read.
  repeat case_bool_decide; try done.
  - intros [= <- <-]. split; [lia|]. exists []. by repeat split.
  - destruct (deadline w); [case_bool_decide; [done|]|];
      intros [= <- <-]; (split; [lia|]);
      exists (take (Z.to_nat n) (buffer (reader w))); simpl;
      rewrite take_drop, length_take; repeat split; try done; lia.
  - destruct (eof_at (reader w)), (deadline w); try done;
      by case_bool_decide.
Qed.

Lemma from_struct_Return {A : Type} (o : option A) (w w' : World) (a : A) :
  from_struct o w = (Return a, w') -> o = Some a /\ w' = w.
Proof. destruct o; [|done]. by intros [= -> ->]. Qed.

(** X3. Whatever [read] returns was on the wire: when it returns
    [(bin_data, voe_data, txt_data)], the binary block has 160 bytes,
    the three segments can be framed, and the buffer held exactly that
    frame in front of what is left in it. With [read_roundtrip] this
    makes [read] and the wire format inverse to each other. *)
Theorem read_sound (w w' : World) (bin_data voe_data txt_data : bytes) :
  read w = (Return (bin_data, voe_data, txt_data), w') ->
  length bin_data = 160%nat /\
  exists payload chunk,
    frame_bytes bin_data voe_data txt_data = Some payload /\
    buffer (reader w) = chunk ++ buffer (reader w') /\
    chunk.*2 = payload.
Proof.
  unfold read. intros Hr.
  apply bind_Return_inv in Hr as (b & w1 & Hb & Hr).
  apply bind_Return_inv in Hr as (n1 & w2 & Hn1 & Hr).
  apply bind_Return_inv in Hn1 as (l1 & w1' & Hl1 & Hu1).
  apply from_struct_Return in Hu1 as [Hu1 ->].
  apply bind_Return_inv in Hr as (v & w3 & Hv & Hr).
  apply bind_Return_inv in Hr as (n2 & w4 & Hn2 & Hr).
  apply bind_Return_inv in Hn2 as (l2 & w3' & Hl2 & Hu2).
  apply from_struct_Return in Hu2 as [Hu2 ->].
  apply bind_Return_inv in Hr as (x & w5 & Hx & Hr).
  apply bind_Return_inv in Hr as ([] & w6 & Hlog & Hr).
  injection Hr as -> -> -> <-. injection Hlog as <-.
  apply readexactly_Return_bytes in Hb as (_ & cb & Hcb & Hb & Hlb & _).
  apply readexactly_Return_bytes in Hl1 as (_ & c1 & Hc1 & Hl1 & _ & _).
  apply readexactly_Return_bytes in Hv as (_ & cv & Hcv & Hv & Hlv & _).
  apply readexactly_Return_bytes in Hl2 as (_ & c2 & Hc2 & Hl2 & _ & _).
  apply readexactly_Return_bytes in Hx as (_ & cx & Hcx & Hx & Hlx & _).
  simpl in *.
  split.
  { rewrite <- Hb, length_fmap. unfold bin_len in Hlb. lia. }
  apply (pack_unpack l1) in Hu1. apply (pack_unpack l2) in Hu2.
  exists (bin_data ++ l1 ++ voe_data ++ l2 ++ txt_data),
         (cb ++ c1 ++ cv ++ c2 ++ cx).
  split; [|split].
  - unfold frame_bytes.
    rewrite <- Hv, <- Hx, !length_fmap, Hlv, Hlx, Hu1, Hu2. simpl.
    by rewrite Hv, Hx.
  - rewrite Hcb, Hc1, Hcv, Hc2, Hcx, <- !app_assoc. done.
  - rewrite !fmap_app, Hb, Hl1, Hv, Hl2, Hx. done.
Qed.

Lemma read_sound_witness :
  read sample.w_notice
    = (Return (sample.bin_block 100, sample.voe_100, sample.txt),
       (read sample.w_notice).2) /\
  length (sample.bin_block 100) = 160%nat /\
  exists payload chunk,
    frame_bytes (sample.bin_block 100) sample.voe_100 sample.txt = Some payload /\
    buffer (reader sample.w_notice) = chunk ++ buffer (reader (read sample.w_notice).2) /\
    chunk.*2 = payload.
Proof.
  split; [vm_compute; reflexivity|].
  apply (read_sound sample.w_notice (read sample.w_notice).2).
  vm_compute. reflexivity.
Defined.

(** ** A length field that reads as a negative number *)

Section negative.
Context `{Imports}.

(** X4. A length prefix that unpacks to a negative number, be it the
    VOEvent one or, after a complete VOEvent segment, the text one,
    makes [read] raise [ValueError] once the prefix has been taken out
    of the buffer; when those bytes are in before the deadline, the
    round raises it too, with the producer and the metrics as they
    were. *)
Theorem negative_length_raises (w : World)
    (cb pre c rest : list (Z * byte)) (n : Z) :
  buffer (reader w) = cb ++ pre ++ c ++ rest ->
  length cb = 160%nat ->
  (pre = [] \/
   exists c1 cv, pre = c1 ++ cv /\
                 int4.unpack c1.*2 = Some (Z.of_nat (length cv))) ->
  int4.unpack c.*2 = Some n ->
  n < 0 ->
  deadline w = None ->
  exists w',
    read w = (Raise ValueError, w') /\
    buffer (reader w') = rest /\
    forall timeout,
      ready_at (now w) (cb ++ pre ++ c) < now w + timeout ->
      process timeout w = (Raise ValueError, w') /\
      producer w' = producer w /\ metrics w' = metrics w.
Proof.
  intros Hbuf Hcb Hpre Hc Hn Hd.
  assert (Hlc : length c = 4%nat).
  { rewrite <- (length_fmap snd).
    destruct (c.*2) as [|b0 [|b1 [|b2 [|b3 [|]]]]]; done. }
  assert (Hneg : forall w0, readexactly n w0 = (Raise ValueError, w0)).
  { intros w0. unfold readexactly. by rewrite bool_decide_true. }
  assert (exists w', read w = (Raise ValueError, w') /\
                     buffer (reader w') = rest /\
                     now w' = ready_at (now w) (cb ++ pre ++ c) /\
                     producer w' = producer w /\ metrics w' = metrics w)
    as (w' & Hr & Hrest & Hnow & Hp & Hm).
  { unfold read.
    erewrite bind_Return; cycle 1.
    { apply (readexactly_chunk _ _ cb); [exact Hbuf|by rewrite Hcb|done]. }
    destruct Hpre as [->|(c1 & cv & -> & Hc1)].
    - erewrite bind_Return; cycle 1.
      { erewrite bind_Return; cycle 1.
        { apply (readexactly_chunk _ _ c); [reflexivity|by rewrite Hlc|done]. }
        simpl. rewrite Hc. reflexivity. }
      eexists. split; [apply bind_Raise, Hneg|].
      simpl. rewrite !ready_at_app. done.
    - assert (Hl1 : length c1 = 4%nat).
      { rewrite <- (length_fmap snd).
        destruct (c1.*2) as [|b0 [|b1 [|b2 [|b3 [|]]]]]; done. }
      erewrite bind_Return; cycle 1.
      { erewrite bind_Return; cycle 1.
        { apply (readexactly_chunk _ _ c1);
            [simpl; by rewrite <- !app_assoc|by rewrite Hl1|done]. }
        simpl. rewrite Hc1. reflexivity. }
      erewrite bind_Return; cycle 1.
      { apply (readexactly_chunk _ _ cv); [reflexivity|done..]. }
      erewrite bind_Return; cycle 1.
      { erewrite bind_Return; cycle 1.
        { apply (readexactly_chunk _ _ c); [reflexivity|by rewrite Hlc|done]. }
        simpl. rewrite Hc. reflexivity. }
      eexists. split; [apply bind_Raise, Hneg|].
      simpl. rewrite <- !app_assoc, !ready_at_app. done. }
  exists w'. split; [exact Hr|]. split; [exact Hrest|].
  intros timeout Hlt.
  assert (Hw : wait_for read timeout w = read w).
  { apply wait_for_on_time; [apply Timed_read|done|].
    rewrite Hr. unfold on_time. simpl. apply bool_decide_eq_true. lia. }
  pose proof (process_read_fails timeout w ValueError) as Hproc.
  rewrite Hw, Hr in Hproc. by specialize (Hproc eq_refl).
Qed.

End negative.

Lemma negative_length_raises_witness :
  (int4.unpack (arriving 5 [xff; xff; xff; xff]).*2 = Some (-1) /\
   length (arriving 5 (sample.bin_block 100)) = 160%nat) /\
  exists w',
    read (sample.peer_sends 5 (sample.bin_block 100 ++ [xff; xff; xff; xff]) (Some 10))
      = (Raise ValueError, w') /\
    buffer (reader w') = [] /\
    forall timeout,
      ready_at
        (now (sample.peer_sends 5 (sample.bin_block 100 ++ [xff; xff; xff; xff]) (Some 10)))
        (arriving 5 (sample.bin_block 100) ++ [] ++ arriving 5 [xff; xff; xff; xff])
      < now (sample.peer_sends 5 (sample.bin_block 100 ++ [xff; xff; xff; xff]) (Some 10))
        + timeout ->
      @process sample.imports timeout
        (sample.peer_sends 5 (sample.bin_block 100 ++ [xff; xff; xff; xff]) (Some 10))
        = (Raise ValueError, w') /\
      producer w'
        = producer (sample.peer_sends 5 (sample.bin_block 100 ++ [xff; xff; xff; xff]) (Some 10)) /\
      metrics w'
        = metrics (sample.peer_sends 5 (sample.bin_block 100 ++ [xff; xff; xff; xff]) (Some 10)).
Proof.
  split; [split; vm_compute; reflexivity|].
  apply (@negative_length_raises sample.imports _
           (arriving 5 (sample.bin_block 100)) [] (arriving 5 [xff; xff; xff; xff]) []
           (-1)).
  - vm_compute. reflexivity.
  - vm_compute. reflexivity.
  - left. reflexivity.
  - vm_compute. reflexivity.
  - lia.
  - reflexivity.
Defined.

(** ** The exceptions that end a round *)

Lemma bind_Raise_inv {A B : Type} (m : Task A) (f : A -> Task B)
    (w w' : World) (e : exn) :
  (m ≫= f) w = (Raise e, w') ->
  m w = (Raise e, w') \/ exists a w1, m w = (Return a, w1) /\ f a w1 = (Raise e, w').
Proof.
  unfold mbind, Task_bind.
  destruct (m w) as [[a|e'|] w1]; intros Hf; [|injection Hf as -> ->; by left|done].
  right. by exists a, w1.
Qed.

Lemma readexactly_Raise (n : Z) (w w' : World) (e : exn) :
  readexactly n w = (Raise e, w') -> read_error e.
Proof.
  unfold readexactly, await_until, await_forever, cancel, take_exactly,
    incomplete_read.
  repeat case_bool_decide; try done.
  - by intros [= <- <-].
  - destruct (deadline w); [case_bool_decide|]; [by intros [= <- <-]|done..].
  - destruct (eof_at (reader w)), (deadline w); try done;
      try case_bool_decide; by intros [= <- <-].
Qed.

(** A length field that was read unpacks. *)
Lemma read_length_Raise (w w' : World) (e : exn) :
  (readexactly int4.size ≫= (from_struct ∘ int4.unpack)) w = (Raise e, w') ->
  read_error e.
Proof.
  intros Hr. apply bind_Raise_inv in Hr as [Hr|(l & w1 & Hl & Hr)].
  - by eapply readexactly_Raise.
  - apply readexactly_Return in Hl as [Hlen _].
    destruct (unpack_is_Some l Hlen) as [z Hz].
    simpl in Hr. by rewrite Hz in Hr.
Qed.

Lemma read_Raise (w w' : World) (e : exn) :
  read w = (Raise e, w') -> read_error e.
Proof.
  unfold read. intros Hr.
  apply bind_Raise_inv in Hr as [Hr|(b & w1 & _ & Hr)];
    [by eapply readexactly_Raise|].
  apply bind_Raise_inv in Hr as [Hr|(n1 & w2 & _ & Hr)];
    [by eapply read_length_Raise|].
  apply bind_Raise_inv in Hr as [Hr|(v & w3 & _ & Hr)];
    [by eapply readexactly_Raise|].
  apply bind_Raise_inv in Hr as [Hr|(n2 & w4 & _ & Hr)];
    [by eapply read_length_Raise|].
  apply bind_Raise_inv in Hr as [Hr|(x & w5 & _ & Hr)];
    [by eapply readexactly_Raise|].
  apply bind_Raise_inv in Hr as [Hr|(u & w6 & _ & Hr)]; done.
Qed.

(** X5. Decoding never fails on what was read. The timed read never
    ends in [struct.error]: a length field that was read always has its
    four bytes. And the binary block of a frame that the timed read
    returns has 160 bytes, so its type code always unpacks. *)
Theorem decoding_never_fails (timeout : Z) (w : World) :
  (wait_for read timeout w).1 <> Raise StructError /\
  match (wait_for read timeout w).1 with
  | Return (bin_data, _, _) =>
      length bin_data = 160%nat /\ is_Some (int4.unpack_from bin_data)
  | _ => True
  end.
Proof.
  split.
  - unfold wait_for.
    destruct (read _) as [[a|e'|] w1] eqn:Hread; [done| |done].
    apply read_Raise in Hread. by destruct e'.
  - destruct (wait_for read timeout w) as [[[[b v] x]|e|] w1] eqn:Hw; [|done..].
    apply wait_for_Return_inv in Hw as (w2 & Hw & _).
    apply read_Return in Hw as [Hlen _]. split; [done|].
    destruct b as [|b0 [|b1 [|b2 [|b3 b]]]]; simpl in *; try lia. by eexists.
Qed.

(** ** What the rounds of a connection keep *)

Lemma Logging_ret {A : Type} (a : A) : Logging (mret a : Task A).
Proof. by intros w. Qed.

Lemma Logging_raise {A : Type} (e : exn) : Logging (raise e : Task A).
Proof. by intros w. Qed.

Lemma Logging_bind {A B : Type} (m : Task A) (f : A -> Task B) :
  Logging m -> (forall a, Logging (f a)) -> Logging (m ≫= f).
Proof.
  intros Hm Hf w. specialize (Hm w). unfold mbind, Task_bind.
  destruct (m w) as [[a|e|] w1]; simpl in *; [|done..].
  etransitivity; [exact Hm|apply Hf].
Qed.

Lemma Logging_from_struct {A : Type} (o : option A) : Logging (from_struct o).
Proof. destruct o; [apply Logging_ret|apply Logging_raise]. Qed.

Lemma Logging_log_emit (r : LogRecord) : Logging (log_emit r).
Proof. intros w. simpl. by apply prefix_app_r. Qed.

Lemma Logging_readexactly (n : Z) : Logging (readexactly n).
Proof.
  intros w. unfold readexactly, await_until, await_forever, cancel,
    take_exactly, incomplete_read.
  repeat case_bool_decide; try done.
  - destruct (deadline w); [case_bool_decide|]; done.
  - destruct (eof_at (reader w)), (deadline w); try done; by case_bool_decide.
Qed.

Lemma Logging_read : Logging read.
Proof.
  unfold read.
  repeat first
    [ apply Logging_bind; [|intros ?]
    | apply Logging_readexactly
    | apply Logging_from_struct
    | apply Logging_log_emit
    | apply Logging_ret ].
Qed.

Lemma Logging_wait_for {A : Type} (m : Task A) (timeout : Z) :
  Logging m -> Logging (wait_for m timeout).
Proof.
  intros Hm w. specialize (Hm (set_deadline (Some (now w + timeout)) w)).
  unfold wait_for.
  destruct (m _) as [[a|e|] w1]; simpl in *; [done| |done]. by destruct e.
Qed.

Lemma round_keeps_refl (w : World) : round_keeps w w.
Proof. split; try done; lia. Qed.

Lemma round_keeps_trans (w1 w2 w3 : World) :
  round_keeps w1 w2 -> round_keeps w2 w3 -> round_keeps w1 w3.
Proof.
  intros [] []. split; try congruence; try lia; by etransitivity.
Qed.

Section keeps.
Context `{Imports}.

Lemma dispatch_keeps (frame : bytes * bytes * bytes) (w : World) :
  round_keeps w (dispatch frame w).2.
Proof.
  destruct frame as [[b v] x].
  destruct (Handling_dispatch (b, v, x) w) as [[] _].
  destruct (int4.unpack_from b) as [t|] eqn:Ht.
  - destruct (decide (t ∈ ignore_notice_types)) as [Hin|Hin].
    + rewrite (dispatch_heartbeat _ _ _ _ _ Ht Hin) in *. simpl in *.
      split; simpl; try done; try lia. by apply prefix_app_r.
    + destruct (fromstring v) as [doc|] eqn:Hx.
      * destruct (get_notice_type doc) as [tv|e] eqn:Hg.
        -- destruct (dispatch_publish w b v x t doc tv Ht Hin Hx Hg)
             as (w' & Hd & Hprod & Hpoll & Hi & _ & Hc & Hlog).
           rewrite Hd in *. simpl in *.
           split; try done; try lia.
           ++ rewrite Hlog. by apply prefix_app_r.
           ++ rewrite Hprod. by apply prefix_app_r.
        -- rewrite (dispatch_untyped _ _ _ _ _ _ _ Ht Hin Hx Hg) in *. simpl in *.
           split; simpl; try done; try lia. by apply prefix_app_r.
      * rewrite (dispatch_malformed _ _ _ _ _ Ht Hin Hx) in *. simpl in *.
        split; simpl; try done; try lia. by apply prefix_app_r.
  - assert (Hd : dispatch (b, v, x) w = (Raise StructError, (iamalive_inc w).2)).
    { unfold dispatch, mbind, Task_bind, iamalive_inc, from_struct. simpl.
      by rewrite Ht. }
    rewrite Hd in *. simpl in *. split; simpl; try done; lia.
Qed.

Lemma process_keeps (timeout : Z) (w : World) :
  round_keeps w (process timeout w).2.
Proof.
  destruct (wait_for_Reading read timeout w Reading_read)
    as [[Hnow Hdl Hbuf Heof Hpn Hwr Hpr Hme] _].
  pose proof (Logging_wait_for read timeout Logging_read w) as Hlog.
  assert (Hread : round_keeps w (wait_for read timeout w).2).
  { split; try done; rewrite ?Hme, ?Hpr; try done; lia. }
  unfold process, mbind, Task_bind.
  destruct (wait_for read timeout w) as [[frame|e|] w1]; simpl in *; [|done..].
  eapply round_keeps_trans; [exact Hread|apply dispatch_keeps].
Qed.

Lemma forever_keeps (n : nat) (timeout : Z) (w : World) (rw : result unit * World) :
  forever n timeout w = Some rw -> round_keeps w rw.2.
Proof.
  revert w. induction n as [|n IH]; intros w Hf; [done|]. simpl in Hf.
  pose proof (process_keeps timeout w) as Hk.
  destruct (process timeout w) as [[[]|e|] w1]; simpl in *.
  - eapply round_keeps_trans; [exact Hk|by apply IH].
  - by injection Hf as <-.
  - by injection Hf as <-.
Qed.

Lemma serve_keeps (timeout : Z) (w : World) :
  exists e w', serve timeout w = (Raise e, w') /\ round_keeps w w'.
Proof.
  unfold serve, enough_fuel.
  destruct (forever_enough (S (length (buffer (reader w)))) timeout w)
    as (e & w' & Hf); [lia|].
  rewrite Hf. exists e, w'. split; [done|].
  by apply (forever_keeps _ _ _ _ Hf).
Qed.

(** X6. A connection to a peer that sends a finite number of bytes and
    then closes or falls silent always ends closed. The callback never
    returns normally and does not hang: it ends with the exception that
    left the loop, whichever it is. By then the writer is closed, the
    gauge of open connections is back where it was, and the log of the
    connection opens with the record of the connection and closes with
    the record of its closing, for the same peer. *)
Theorem connection_always_closes (timeout : Z) (w0 : World) :
  exists e w' mid,
    client_connected_cb timeout w0 = (Raise e, w') /\
    serve timeout (entered w0) = (Raise e, (serve timeout (entered w0)).2) /\
    writer_closed w' = true /\
    connected (metrics w') = connected (metrics w0) /\
    log w' = log w0 ++ [InfoConnected (peername w0)] ++ mid
               ++ [InfoClosing (peername w0)].
Proof.
  destruct (serve_keeps timeout (entered w0)) as (e & w' & Hs & Hk).
  destruct (rk_log _ _ Hk) as [mid Hmid].
  exists e, (teardown (peername w0) w').2, mid.
  split; [by apply client_connected_cb_serve|]. split; [by rewrite Hs|].
  split; [reflexivity|]. split.
  - simpl. rewrite (rk_connected _ _ Hk). simpl. lia.
  - simpl. rewrite Hmid. simpl. by rewrite <- !app_assoc.
Qed.


End keeps.


(** ** The labelled counter of notices received *)

Lemma counter_inc_lookup (hit labels : Z * string * string)
    (c : gmap (Z * string * string) nat) :
  default 0%nat (counter_inc hit c !! labels)
  = (default 0%nat (c !! labels) + if bool_decide (hit = labels) then 1 else 0)%nat.
Proof.
  unfold counter_inc. case_bool_decide as E.
  - subst. rewrite lookup_insert_eq. simpl. lia.
  - rewrite lookup_insert_ne by done. lia.
Qed.

Section received.
Context `{Imports}.

(** X9. A notice that is published is counted once under each of its
    three label sets and nowhere else: the cell of
    [(type, name, flavor)] goes up by one for the binary and text
    flavors under the binary code and for the voevent flavor under the
    code found in the XML, and every other cell of the counter keeps
    its value. *)
Theorem received_counts_flavors (timeout : Z) (w : World)
    (bin_data voe_data txt_data : bytes) (t : Z) (doc : Element) (tv : Z)
    (labels : Z * string * string) :
  (wait_for read timeout w).1 = Return (bin_data, voe_data, txt_data) ->
  int4.unpack_from bin_data = Some t ->
  t ∉ ignore_notice_types ->
  fromstring voe_data = Some doc ->
  get_notice_type doc = returns tv ->
  default 0%nat (received (metrics (process timeout w).2) !! labels)
  = (default 0%nat (received (metrics w) !! labels)
     + if bool_decide
            (labels ∈ [ (t, notice_type_int_to_str t, "binary"%string);
                        (tv, notice_type_int_to_str tv, "voevent"%string);
                        (t, notice_type_int_to_str t, "text"%string) ])
       then 1 else 0)%nat.
Proof.
  intros Hr Ht Hin Hx Hg.
  destruct (after_read timeout w) as (_ & Hm & _).
  destruct (dispatch_publish (wait_for read timeout w).2
              bin_data voe_data txt_data t doc tv Ht Hin Hx Hg)
    as (w' & Hd & _ & _ & _ & Hrec & _).
  rewrite (process_frame _ _ _ Hr), Hd. simpl. rewrite Hrec, Hm.
  rewrite !counter_inc_lookup.
  set (L1 := (t, notice_type_int_to_str t, "binary"%string)).
  set (L2 := (tv, notice_type_int_to_str tv, "voevent"%string)).
  set (L3 := (t, notice_type_int_to_str t, "text"%string)).
  assert (H12 : L1 <> L2) by (unfold L1, L2; congruence).
  assert (H13 : L1 <> L3) by (unfold L1, L3; congruence).
  assert (H23 : L2 <> L3) by (unfold L2, L3; congruence).
  rewrite (bool_decide_ext (labels ∈ [L1; L2; L3])
             (L1 = labels \/ L2 = labels \/ L3 = labels)).
  2:{ rewrite !elem_of_cons, elem_of_nil. intuition congruence. }
  destruct (decide (L1 = labels)) as [E1|E1], (decide (L2 = labels)) as [E2|E2],
    (decide (L3 = labels)) as [E3|E3]; try congruence;
    rewrite ?(bool_decide_true _ E1), ?(bool_decide_false _ E1),
      ?(bool_decide_true _ E2), ?(bool_decide_false _ E2),
      ?(bool_decide_true _ E3), ?(bool_decide_false _ E3);
    (rewrite bool_decide_true by tauto) || (rewrite bool_decide_false by tauto);
    lia.
Qed.

End received.

Lemma received_counts_flavors_witness :
  ((wait_for read 90 sample.w_mismatch).1
     = Return (sample.bin_block 100, sample.voe_101, sample.txt) /\
   int4.unpack_from (sample.bin_block 100) = Some 100 /\
   (100 ∉ (@ignore_notice_types sample.imports)) /\
   sample.parse sample.voe_101 = Some 101 /\
   @get_notice_type sample.imports 101 = returns 101) /\
  default 0%nat
    (received (metrics (@process sample.imports 90 sample.w_mismatch).2)
       !! (101%Z, "TYPE_101"%string, "voevent"%string))
  = (default 0%nat
       (received (metrics sample.w_mismatch) !! (101%Z, "TYPE_101"%string, "voevent"%string))
     + if bool_decide
            ((101%Z, "TYPE_101"%string, "voevent"%string)
               ∈ [ (100%Z, "TYPE_100"%string, "binary"%string);
                   (101%Z, "TYPE_101"%string, "voevent"%string);
                   (100%Z, "TYPE_100"%string, "text"%string) ])
       then 1 else 0)%nat.
Proof.
  assert (Hin : 100 ∉ (@ignore_notice_types sample.imports)).
  { apply (bool_decide_unpack _). vm_compute. exact I. }
  split.
  - split; [vm_compute; reflexivity|].
    split; [vm_compute; reflexivity|].
    split; [exact Hin|]. split; reflexivity.
  - apply (@received_counts_flavors sample.imports 90 sample.w_mismatch
             (sample.bin_block 100) sample.voe_101 sample.txt 100 101 101
             (101%Z, "TYPE_101"%string, "voevent"%string)).
    + vm_compute. reflexivity.
    + vm_compute. reflexivity.
    + exact Hin.
    + reflexivity.
    + reflexivity.
Defined.

(** ** A stream of notices, handled in order *)

Lemma ready_at_arrived (t : Z) (chunk : list (Z * byte)) :
  Forall (fun tb => tb.1 <= t) chunk -> ready_at t chunk = t.
Proof.
  induction 1 as [|x l Hx _ IH]; simpl; [done|]. rewrite IH. lia.
Qed.

Section stream.
Context `{Imports}.

(** One round on a notice that is already in the buffer. *)
Lemma process_acceptable (timeout : Z) (w : World)
    (notice : bytes * bytes * bytes) (payload tail : bytes) :
  acceptable notice ->
  frame_bytes notice.1.1 notice.1.2 notice.2 = Some payload ->
  (buffer (reader w)).*2 = payload ++ tail ->
  Forall (fun tb => tb.1 <= now w) (buffer (reader w)) ->
  deadline w = None ->
  0 < timeout ->
  exists w',
    process timeout w = (Return tt, w') /\
    (buffer (reader w')).*2 = tail /\
    Forall (fun tb => tb.1 <= now w') (buffer (reader w')) /\
    now w' = now w /\ deadline w' = None /\
    eof_at (reader w') = eof_at (reader w) /\
    produced (producer w') = produced (producer w) ++ publications notice /\
    iamalive (metrics w') = S (iamalive (metrics w)).
Proof.
  destruct notice as [[b v] x]. simpl.
  intros (Hlen & _ & t & Ht & Hok) Hf Hbuf Harr Hd Hpos. simpl in *.
  apply fmap_app_inv in Hbuf as (chunk & rest & Hchunk & Hrest & Hbuf).
  rewrite Hbuf in Harr. apply Forall_app in Harr as [Hac Har].
  pose proof (read_frame w b v x payload chunk rest Hlen Hf Hbuf
                (eq_sym Hchunk) Hd) as Hr.
  rewrite (ready_at_arrived _ _ Hac) in Hr.
  assert (Hw : wait_for read timeout w = read w).
  { apply wait_for_on_time; [apply Timed_read|done|].
    rewrite Hr. unfold on_time. simpl. apply bool_decide_eq_true. lia. }
  assert (Hp : forall rw, dispatch (b, v, x) (read w).2 = rw ->
                          process timeout w = rw).
  { intros rw <-. unfold process. erewrite bind_Return; [done|].
    rewrite Hw, Hr. done. }
  rewrite Hr in Hp. cbn [snd] in Hp.
  match type of Hr with _ = (_, ?w0) => set (w1 := w0) in * end.
  destruct (decide (t ∈ ignore_notice_types)) as [Hin|Hin].
  - eexists. split; [apply Hp, (dispatch_heartbeat _ _ _ _ _ Ht Hin)|].
    simpl. rewrite Ht, bool_decide_true, app_nil_r by done. done.
  - destruct Hok as [Hin'|(doc & tv & Hx & Hg)]; [done|].
    destruct (dispatch_publish w1 b v x t doc tv Ht Hin Hx Hg)
      as (w' & Hdis & Hprod & _ & Hi & _).
    destruct (Handling_dispatch (b, v, x) w1) as [[Hn Hdl Hrd _ _] _].
    rewrite Hdis in Hn, Hdl, Hrd. simpl in Hn, Hdl, Hrd.
    exists w'. split; [by apply Hp|].
    rewrite Hrd, Hn, Hdl, Hprod, Hi. simpl.
    rewrite Ht, bool_decide_false, Hx by done. simpl. rewrite Hg. done.
Qed.

(** The rounds on a run of notices that are already in the buffer. *)
Lemma serve_notices (timeout : Z) (notices : list (bytes * bytes * bytes))
    (w : World) (tail : bytes) :
  Forall acceptable notices ->
  (buffer (reader w)).*2 = wire notices ++ tail ->
  Forall (fun tb => tb.1 <= now w) (buffer (reader w)) ->
  deadline w = None ->
  0 < timeout ->
  exists w',
    serve timeout w = serve timeout w' /\
    (buffer (reader w')).*2 = tail /\
    Forall (fun tb => tb.1 <= now w') (buffer (reader w')) /\
    now w' = now w /\ deadline w' = None /\
    eof_at (reader w') = eof_at (reader w) /\
    produced (producer w')
      = produced (producer w) ++ flat_map publications notices /\
    iamalive (metrics w') = (iamalive (metrics w) + length notices)%nat.
Proof.
  intros Hacc. revert w.
  induction Hacc as [|notice notices Hn _ IH]; intros w Hbuf Harr Hd Hpos.
  - exists w. simpl in *. rewrite app_nil_r.
    repeat split; try done; lia.
  - destruct (proj1 (proj2 Hn)) as [payload Hf].
    simpl in Hbuf. rewrite Hf in Hbuf. simpl in Hbuf.
    rewrite <- app_assoc in Hbuf.
    destruct (process_acceptable timeout w notice payload _ Hn Hf Hbuf Harr Hd Hpos)
      as (w1 & Hp & Hbuf1 & Harr1 & Hn1 & Hd1 & He1 & Hprod1 & Hi1).
    destruct (IH w1 Hbuf1 Harr1 Hd1 Hpos)
      as (w' & Hs & Hbuf' & Harr' & Hn' & Hd' & He' & Hprod' & Hi').
    exists w'. split; [by rewrite serve_unfold, Hp|].
    repeat split; try congruence.
    + rewrite Hprod', Hprod1. simpl. by rewrite <- app_assoc.
    + rewrite Hi', Hi1. simpl. lia.
Qed.

(** X10. Notices are handled in the order they arrive, each exactly
    once. When the buffer holds a run of notices that can be framed,
    each a heartbeat or with a VOEvent payload that parses and carries
    a type code, and the peer then closes in time, the loop publishes
    the messages of the notices in their order, three for each one that
    is not a heartbeat and none for a heartbeat, counts every one of
    them, and is left by the [IncompleteReadError] of the close between
    notices. *)
Theorem stream_in_order (timeout te : Z) (notices : list (bytes * bytes * bytes))
    (w : World) :
  Forall acceptable notices ->
  (buffer (reader w)).*2 = wire notices ->
  Forall (fun tb => tb.1 <= now w) (buffer (reader w)) ->
  eof_at (reader w) = Some te ->
  deadline w = None ->
  0 < timeout ->
  te < now w + timeout ->
  exists w',
    serve timeout w = (Raise (IncompleteReadError [] 160), w') /\
    produced (producer w')
      = produced (producer w) ++ flat_map publications notices /\
    iamalive (metrics w') = (iamalive (metrics w) + length notices)%nat.
Proof.
  intros Hacc Hbuf Harr He Hd Hpos Hte.
  rewrite <- (app_nil_r (wire notices)) in Hbuf.
  destruct (serve_notices timeout notices w [] Hacc Hbuf Harr Hd Hpos)
    as (w1 & Hs & Hbuf1 & _ & Hn1 & Hd1 & He1 & Hprod1 & Hi1).
  apply fmap_nil_inv in Hbuf1. rewrite He in He1.
  assert (Hr : read w1
               = (Raise (IncompleteReadError [] 160),
                  set_reader {| buffer := []; eof_at := Some te |}
                    (set_now (Z.max (now w1) te) w1))).
  { unfold read. apply bind_Raise.
    rewrite (readexactly_short _ te); [by rewrite Hbuf1| |done..].
    rewrite Hbuf1. simpl. unfold bin_len. lia. }
  assert (Hw : wait_for read timeout w1 = read w1).
  { apply wait_for_on_time; [apply Timed_read|done|].
    rewrite Hr. unfold on_time. simpl. apply bool_decide_eq_true. lia. }
  pose proof (process_read_fails timeout w1 (IncompleteReadError [] 160)) as Hp.
  rewrite Hw, Hr in Hp. specialize (Hp eq_refl). simpl in Hp.
  eexists. split; [by rewrite Hs, serve_unfold, Hp|]. simpl. done.
Qed.

(** X11. A notice whose VOEvent payload does not parse stops the
    stream: the notices in front of it are published in order, the
    loop is left by [XMLSyntaxError], and neither the notice itself
    nor anything the peer sent after it is published. *)
Theorem malformed_notice_stops_stream (timeout : Z)
    (notices : list (bytes * bytes * bytes))
    (bin_data voe_data txt_data payload after : bytes) (t : Z) (w : World) :
  Forall acceptable notices ->
  length bin_data = 160%nat ->
  frame_bytes bin_data voe_data txt_data = Some payload ->
  int4.unpack_from bin_data = Some t ->
  t ∉ ignore_notice_types ->
  fromstring voe_data = None ->
  (buffer (reader w)).*2 = wire notices ++ payload ++ after ->
  Forall (fun tb => tb.1 <= now w) (buffer (reader w)) ->
  deadline w = None ->
  0 < timeout ->
  exists w',
    serve timeout w = (Raise XMLSyntaxError, w') /\
    produced (producer w')
      = produced (producer w) ++ flat_map publications notices /\
    (buffer (reader w')).*2 = after.
Proof.
  intros Hacc Hlen Hf Ht Hin Hx Hbuf Harr Hd Hpos.
  destruct (serve_notices timeout notices w _ Hacc Hbuf Harr Hd Hpos)
    as (w1 & Hs & Hbuf1 & Harr1 & Hn1 & Hd1 & He1 & Hprod1 & Hi1).
  apply fmap_app_inv in Hbuf1 as (chunk & rest & Hchunk & Hrest & Hbuf1).
  rewrite Hbuf1 in Harr1. apply Forall_app in Harr1 as [Hac _].
  pose proof (read_frame w1 _ _ _ payload chunk rest Hlen Hf Hbuf1
                (eq_sym Hchunk) Hd1) as Hr.
  rewrite (ready_at_arrived _ _ Hac) in Hr.
  assert (Hw : wait_for read timeout w1 = read w1).
  { apply wait_for_on_time; [apply Timed_read|done|].
    rewrite Hr. unfold on_time. simpl. apply bool_decide_eq_true. lia. }
  assert (Hp : process timeout w1
               = dispatch (bin_data, voe_data, txt_data) (read w1).2).
  { unfold process. erewrite bind_Return; [done|]. rewrite Hw, Hr. done. }
  rewrite Hr in Hp. cbn [snd] in Hp.
  rewrite (dispatch_malformed _ _ _ _ _ Ht Hin Hx) in Hp.
  eexists. split; [by rewrite Hs, serve_unfold, Hp|]. simpl. done.
Qed.

End stream.

Lemma sample_notices_acceptable :
  Forall (@acceptable sample.imports) sample_stream.notices.
Proof.
  unfold sample_stream.notices.
  constructor; [|constructor; [|constructor]].
  - split; [reflexivity|]. split; [vm_compute; eexists; reflexivity|].
    exists 100. split; [vm_compute; reflexivity|]. right.
    exists 101, 101. split; reflexivity.
  - split; [reflexivity|]. split; [vm_compute; eexists; reflexivity|].
    exists 3. split; [vm_compute; reflexivity|]. left.
    apply (bool_decide_unpack _). vm_compute. exact I.
Defined.

Lemma stream_in_order_witness :
  ((buffer (reader sample_stream.w_two)).*2 = wire sample_stream.notices /\
   Forall (fun tb => tb.1 <= now sample_stream.w_two)
     (buffer (reader sample_stream.w_two)) /\
   eof_at (reader sample_stream.w_two) = Some 5 /\
   deadline sample_stream.w_two = None /\
   0 < 90 /\ 5 < now sample_stream.w_two + 90) /\
  exists w',
    @serve sample.imports 90 sample_stream.w_two
      = (Raise (IncompleteReadError [] 160), w') /\
    produced (producer w')
      = produced (producer sample_stream.w_two)
        ++ flat_map (@publications sample.imports) sample_stream.notices /\
    iamalive (metrics w')
      = (iamalive (metrics sample_stream.w_two) + length sample_stream.notices)%nat.
Proof.
  assert (Harr : Forall (fun tb => tb.1 <= now sample_stream.w_two)
                   (buffer (reader sample_stream.w_two))).
  { apply (bool_decide_unpack _). vm_compute. exact I. }
  split.
  - split; [vm_compute; reflexivity|]. split; [exact Harr|].
    split; [reflexivity|]. split; [reflexivity|]. split; [lia|]. simpl. lia.
  - apply (@stream_in_order sample.imports 90 5 sample_stream.notices
             sample_stream.w_two).
    + exact sample_notices_acceptable.
    + vm_compute. reflexivity.
    + exact Harr.
    + reflexivity.
    + reflexivity.
    + lia.
    + simpl. lia.
Defined.

Lemma malformed_notice_stops_stream_witness :
  (length (sample.bin_block 100) = 160%nat /\
   frame_bytes (sample.bin_block 100) sample.not_xml sample.txt
     = Some (sample.frame 100 sample.not_xml) /\
   int4.unpack_from (sample.bin_block 100) = Some 100 /\
   (100 ∉ (@ignore_notice_types sample.imports)) /\
   sample.parse sample.not_xml = None /\
   (buffer (reader sample_stream.w_broken)).*2
     = wire sample_stream.notices ++ sample.frame 100 sample.not_xml ++ [x01; x02] /\
   Forall (fun tb => tb.1 <= now sample_stream.w_broken)
     (buffer (reader sample_stream.w_broken)) /\
   deadline sample_stream.w_broken = None /\
   0 < 90) /\
  exists w',
    @serve sample.imports 90 sample_stream.w_broken = (Raise XMLSyntaxError, w') /\
    produced (producer w')
      = produced (producer sample_stream.w_broken)
        ++ flat_map (@publications sample.imports) sample_stream.notices /\
    (buffer (reader w')).*2 = [x01; x02].
Proof.
  assert (Hin : 100 ∉ (@ignore_notice_types sample.imports)).
  { apply (bool_decide_unpack _). vm_compute. exact I. }
  assert (Harr : Forall (fun tb => tb.1 <= now sample_stream.w_broken)
                   (buffer (reader sample_stream.w_broken))).
  { apply (bool_decide_unpack _). vm_compute. exact I. }
  split.
  - split; [reflexivity|]. split; [vm_compute; reflexivity|].
    split; [vm_compute; reflexivity|]. split; [exact Hin|].
    split; [reflexivity|]. split; [vm_compute; reflexivity|].
    split; [exact Harr|]. split; [reflexivity|lia].
  - apply (@malformed_notice_stops_stream sample.imports 90 sample_stream.notices
             (sample.bin_block 100) sample.not_xml sample.txt
             (sample.frame 100 sample.not_xml) [x01; x02] 100
             sample_stream.w_broken).
    + exact sample_notices_acceptable.
    + reflexivity.
    + vm_compute. reflexivity.
    + vm_compute. reflexivity.
    + exact Hin.
    + reflexivity.
    + vm_compute. reflexivity.
    + exact Harr.
    + reflexivity.
    + lia.
Defined.

(** ** A frame that cannot be read *)

Section unread.
Context `{Imports}.

(** X12. A frame that cannot be read completely leaves no trace: when
    the read ends in an exception, whichever it is, the round ends in
    the same exception with the producer and every metric as they
    were; nothing of the unfinished notice is published or counted. *)
Theorem unread_frame_leaves_no_trace (timeout : Z) (w : World) (e : exn) :
  (wait_for read timeout w).1 = Raise e ->
  exists w',
    process timeout w = (Raise e, w') /\
    producer w' = producer w /\
    metrics w' = metrics w /\
    writer_closed w' = writer_closed w.
Proof.
  intros Hr. destruct (after_read timeout w) as (Hp & Hm & Hc).
  exists (wait_for read timeout w).2.
  split; [by apply process_read_fails|done].
Qed.

End unread.

Lemma unread_frame_leaves_no_trace_witness :
  (wait_for read 90 sample.w_cut).1 = Raise (IncompleteReadError [] 160) /\
  exists w',
    @process sample.imports 90 sample.w_cut
      = (Raise (IncompleteReadError [] 160), w') /\
    producer w' = producer sample.w_cut /\
    metrics w' = metrics sample.w_cut /\
    writer_closed w' = writer_closed sample.w_cut.
Proof.
  split; [vm_compute; reflexivity|].
  apply (@unread_frame_leaves_no_trace sample.imports 90 sample.w_cut).
  vm_compute. reflexivity.
Defined.
